(** * rest_framework_nested.relations: nested hyperlinked relation fields

    A shallow embedding of [NestedHyperlinkedRelatedField] and
    [NestedHyperlinkedIdentityField] (rest_framework_nested/relations.py).

    - Python values are a small inductive type; an object is the table of
      the attributes [getattr] resolves on it, and reading an attribute
      may raise.
    - Exceptions are an error monad ([result]).
    - The keyword dictionaries handed to the framework are finite maps;
      [parent_lookup_kwargs], whose iteration order matters, is a
      dictionary value with its items in insertion order.
    - What the module takes from the host framework (the base class
      [HyperlinkedRelatedField], URL reversal, the queryset) is an
      interface, [Framework].  Every method of the module returns, next
      to its outcome, the list of the framework calls it made ([io]). *)

From stdpp Require Import base option list strings gmap fin_maps.

Set Default Proof Using "Type".
Open Scope string_scope.

(** ** Exceptions *)

(** One entry of [ValidationError.detail]: an [ErrorDetail] string with its
    [code]. *)
Record ErrorDetail := mkErrorDetail { message : string; code : string }.

(** The exception classes the module mentions or can meet.  A constructor
    stands for an instance of the class or of one of its subclasses;
    [OtherError] is any exception that is an instance of none of them
    (for instance [NoReverseMatch]). *)
Inductive exn :=
| AttributeError
| KeyError (key : string)
| IndexError
| TypeError
| AssertionError (msg : string)
| ValidationError (detail : list ErrorDetail)
| ObjectDoesNotExist
| ObjectValueError
| ObjectTypeError
| OtherError (name : string).

(** The outcome of evaluating a Python expression: a value or a raised
    exception. *)
Inductive result (A : Type) :=
| Ok (a : A)
| Raise (e : exn).
Arguments Ok {A} a.
Arguments Raise {A} e.

#[global] Instance result_ret : MRet result := fun A a => Ok a.
#[global] Instance result_bind : MBind result := fun A B f r =>
  match r with
  | Ok a => f a
  | Raise e => Raise e
  end.

(** ** Values and objects *)

(** Python values.  An object ([VObj]) is its attribute table: every name
    [getattr] resolves on it, each bound to the outcome of the access (a
    descriptor may raise instead of returning).  The other values carry no
    attributes of their own in this model. *)
#[warnings="-register-all"]
Inductive value :=
| VNone
| VBool (b : bool)
| VInt (n : Z)
| VStr (s : string)
| VDict (items : list (string * value))
| VObj (attrs : list (string * result value)).

(** First binding of a key in an insertion-ordered table. *)
Fixpoint assoc {A : Type} (k : string) (l : list (string * A)) : option A :=
  match l with
  | [] => None
  | (k', a) :: l' => if String.eqb k k' then Some a else assoc k l'
  end.

(** [getattr(o, name)] *)
Definition getattr (o : value) (name : string) : result value :=
  match o with
  | VObj attrs =>
      match assoc name attrs with
      | Some slot => slot
      | None => Raise AttributeError
      end
  | _ => Raise AttributeError
  end.

(** [hasattr(o, name)]: [getattr] with [AttributeError] turned into
    [False]; any other exception passes through. *)
Definition hasattr (o : value) (name : string) : result bool :=
  match getattr o name with
  | Ok _ => Ok true
  | Raise AttributeError => Ok false
  | Raise e => Raise e
  end.

(** The builtin [getattr] as [reduce] receives it: both arguments are
    values, and the attribute name has to be a string. *)
Definition py_getattr (o name : value) : result value :=
  match name with
  | VStr n => getattr o n
  | _ => Raise TypeError
  end.

(** [functools.reduce(f, seq)] without initial value. *)
Fixpoint reduce_from (f : value → value → result value) (acc : value)
    (seq : list value) : result value :=
  match seq with
  | [] => Ok acc
  | x :: seq' => acc' ← f acc x; reduce_from f acc' seq'
  end.

Definition reduce (f : value → value → result value) (seq : list value)
    : result value :=
  match seq with
  | [] => Raise TypeError
  | x :: seq' => reduce_from f x seq'
  end.

(** [x in (None, '')] *)
Definition in_none_or_empty (x : value) : bool :=
  match x with
  | VNone => true
  | VStr "" => true
  | _ => false
  end.

(** ** Strings *)

(** [s.split(sep)] for a non-empty separator: cut at the occurrences of
    [sep] found scanning from the left, without overlap.  [skip] counts
    the characters of an occurrence still to be passed over and [cur] is
    the piece being collected. *)
Fixpoint split_go (sep : string) (skip : nat) (cur s : string) : list string :=
  match s with
  | EmptyString => [cur]
  | String c s' =>
      match skip with
      | S n => split_go sep n cur s'
      | O =>
          if String.prefix sep s
          then cur :: split_go sep (String.length sep - 1) "" s'
          else split_go sep 0 (cur +:+ String c "") s'
      end
  end.

Definition split (sep s : string) : list string := split_go sep 0 "" s.

(** [sep.join(pieces)] *)
Fixpoint join (sep : string) (pieces : list string) : string :=
  match pieces with
  | [] => ""
  | [p] => p
  | p :: ps => p +:+ sep +:+ join sep ps
  end.

(** [.keys()] on a value: only dictionaries have the method.  On an object
    the attribute is looked up first; no attribute of the model is
    callable. *)
Definition py_keys (d : value) : result (list string) :=
  match d with
  | VDict items => Ok (items.*1)
  | _ => _ ← getattr d "keys"; Raise TypeError
  end.

(** [d[k]] on a value. *)
Definition py_getitem (d : value) (k : string) : result value :=
  match d with
  | VDict items =>
      match assoc k items with
      | Some v => Ok v
      | None => Raise (KeyError k)
      end
  | _ => Raise TypeError
  end.

(** [s.split('__')] on a value. *)
Definition py_split (s : value) (sep : string) : result (list string) :=
  match s with
  | VStr str => Ok (split sep str)
  | _ => _ ← getattr s "split"; Raise TypeError
  end.

(** [view_kwargs[k]] on a keyword dictionary. *)
Definition kw_getitem (d : gmap string value) (k : string) : result value :=
  match d !! k with
  | Some v => Ok v
  | None => Raise (KeyError k)
  end.

(** ** The host framework *)

(** An instance of the field: the state the base class keeps for it, and
    the one attribute this module adds. *)
Record Field (B : Type) := mkField {
  base : B;
  parent_lookup_kwargs : value
}.
Arguments mkField {B} base parent_lookup_kwargs.
Arguments base {B} f.
Arguments parent_lookup_kwargs {B} f.

(** What the module uses of the host framework and does not define:
    the base class [HyperlinkedRelatedField] (its constructor, the
    attributes it sets, the methods reached through [super()] and
    [self]), URL reversal and the queryset.  Every call may raise. *)
Class Framework := {
  Request : Type;
  QuerySet : Type;
  Base : Type;
  base_init : list value → gmap string value → result Base;
  lookup_field : Base → string;
  lookup_url_kwarg : Base → string;
  reverse : Field Base → string → gmap string value → Request →
            option string → result value;
  base_get_url : Field Base → value → string → Request → option string →
                 result value;
  get_queryset : Field Base → result QuerySet;
  queryset_get : QuerySet → gmap string value → result value;
  base_to_internal_value : Field Base → value → result value;
  fail : Field Base → string → result value
}.

Section Relations.
Context `{fw : Framework}.

(** The calls made on the framework, with their arguments. *)
Inductive call :=
| CallBaseInit (args : list value) (kwargs : gmap string value)
| CallReverse (view_name : string) (kwargs : gmap string value)
    (request : Request) (format : option string)
| CallBaseGetUrl (obj : value) (view_name : string) (request : Request)
    (format : option string)
| CallGetQueryset
| CallQuerysetGet (qs : QuerySet) (kwargs : gmap string value)
| CallBaseToInternalValue (data : value)
| CallFail (key : string).

(** A computation: the framework calls it made, in order, and how it
    ended. *)
Record io (A : Type) := IO { calls : list call; outcome : result A }.
Arguments IO {A} calls outcome.
Arguments calls {A} i.
Arguments outcome {A} i.

#[global] Instance io_ret : MRet io := fun A a => IO [] (Ok a).
#[global] Instance io_bind : MBind io := fun A B f m =>
  match outcome m with
  | Ok a => IO (calls m ++ calls (f a)) (outcome (f a))
  | Raise e => IO (calls m) (Raise e)
  end.

(** An evaluation that calls nothing. *)
Definition pure {A : Type} (r : result A) : io A := IO [] r.

(** One framework call and its outcome. *)
Definition invoke {A : Type} (c : call) (r : result A) : io A := IO [c] r.

(** [try: body / except ...: handler]; [handler e] is [None] when no
    [except] clause matches [e]. *)
Definition try_except {A : Type} (body : io A) (handler : exn → option (io A))
    : io A :=
  match outcome body with
  | Ok _ => body
  | Raise e =>
      match handler e with
      | Some h => IO (calls body ++ calls h) (outcome h)
      | None => body
      end
  end.

(** *** NestedHyperlinkedRelatedField *)

(** The class attribute [parent_lookup_kwargs]. *)
Definition class_parent_lookup_kwargs : value :=
  VDict [("parent_pk", VStr "parent__pk")].

(** [__init__(self, *args, **kwargs)] *)
Definition init (args : list value) (kwargs : gmap string value)
    : io (Field Base) :=
  let popped := default class_parent_lookup_kwargs
                  (kwargs !! "parent_lookup_kwargs") in
  let kwargs := delete "parent_lookup_kwargs" kwargs in
  b ← invoke (CallBaseInit args kwargs) (base_init args kwargs);
  mret (mkField b popped).

(** [hasattr(obj, 'pk') and obj.pk in (None, '')] *)
Definition is_unsaved (obj : value) : result bool :=
  has_pk ← hasattr obj "pk";
  if has_pk : bool then pk ← getattr obj "pk"; mret (in_none_or_empty pk)
  else mret false.

(** The [for] loop of [get_url] over the remaining keys, followed by the
    final [reverse]; the [except] branch returns from [get_url]. *)
Fixpoint get_url_parents (self : Field Base) (obj : value)
    (view_name : string) (request : Request) (format : option string)
    (keys : list string) (kwargs : gmap string value) : io value :=
  match keys with
  | [] =>
      invoke (CallReverse view_name kwargs request format)
        (reverse self view_name kwargs request format)
  | parent_lookup_kwarg :: keys' =>
      match py_getitem (parent_lookup_kwargs self) parent_lookup_kwarg with
      | Raise e => pure (Raise e)
      | Ok underscored_lookup =>
          match py_split underscored_lookup "__" with
          | Raise e => pure (Raise e)
          | Ok lookups =>
              match reduce py_getattr (obj :: (VStr <$> lookups)) with
              | Raise AttributeError =>
                  invoke (CallBaseGetUrl obj view_name request format)
                    (base_get_url self obj view_name request format)
              | Raise e => pure (Raise e)
              | Ok lookup_value =>
                  get_url_parents self obj view_name request format keys'
                    (<[parent_lookup_kwarg := lookup_value]> kwargs)
              end
          end
      end
  end.

(** [get_url(self, obj, view_name, request, format)] *)
Definition get_url (self : Field Base) (obj : value) (view_name : string)
    (request : Request) (format : option string) : io value :=
  unsaved ← pure (is_unsaved obj);
  if unsaved : bool then mret VNone
  else
    lookup_value ← pure (getattr obj (lookup_field (base self)));
    let kwargs : gmap string value :=
      {[ lookup_url_kwarg (base self) := lookup_value ]} in
    keys ← pure (py_keys (parent_lookup_kwargs self));
    get_url_parents self obj view_name request format keys kwargs.

(** A dictionary key: [{path: v}] needs [path] hashable, which a
    dictionary is not; the key is kept as a string when it is one. *)
Definition py_hash_key (path : value) : result (option string) :=
  match path with
  | VStr s => Ok (Some s)
  | VDict _ => Raise TypeError
  | _ => Ok None
  end.

(** The [for] loop of [get_object].  [kwargs] holds the string keys of
    the dictionary built so far and [strs] tells whether all its keys
    are strings. *)
Fixpoint get_object_parents (self : Field Base)
    (view_kwargs : gmap string value) (keys : list string)
    (kwargs : gmap string value) (strs : bool)
    : result (gmap string value * bool) :=
  match keys with
  | [] => Ok (kwargs, strs)
  | parent_lookup_kwarg :: keys' =>
      lookup_value ← kw_getitem view_kwargs parent_lookup_kwarg;
      path ← py_getitem (parent_lookup_kwargs self) parent_lookup_kwarg;
      key ← py_hash_key path;
      match key with
      | Some p =>
          get_object_parents self view_kwargs keys'
            (<[p := lookup_value]> kwargs) strs
      | None => get_object_parents self view_kwargs keys' kwargs false
      end
  end.

(** [self.get_queryset().get] with [kwargs] unpacked as its keywords; the
    keywords of a call have to be strings. *)
Definition queryset_lookup (self : Field Base) (kwargs : gmap string value)
    (strs : bool) : io value :=
  qs ← invoke CallGetQueryset (get_queryset self);
  if strs then invoke (CallQuerysetGet qs kwargs) (queryset_get qs kwargs)
  else pure (Raise TypeError).

(** [get_object(self, view_name, view_args, view_kwargs)] *)
Definition get_object (self : Field Base) (view_name : string)
    (view_args : list value) (view_kwargs : gmap string value) : io value :=
  lookup_value ← pure (kw_getitem view_kwargs (lookup_url_kwarg (base self)));
  let kwargs : gmap string value :=
    {[ lookup_url_kwarg (base self) := lookup_value ]} in
  keys ← pure (py_keys (parent_lookup_kwargs self));
  '(kwargs, strs) ← pure (get_object_parents self view_kwargs keys kwargs true);
  queryset_lookup self kwargs strs.

(** [use_pk_only_optimization(self)] *)
Definition use_pk_only_optimization (self : Field Base) : bool := false.

(** [err.detail[0]] *)
Definition first_detail (detail : list ErrorDetail) : result ErrorDetail :=
  match detail with
  | [] => Raise IndexError
  | d :: _ => Ok d
  end.

(** [except (ObjectDoesNotExist, ObjectValueError, ObjectTypeError)] *)
Definition is_lookup_failure (e : exn) : bool :=
  match e with
  | ObjectDoesNotExist | ObjectValueError | ObjectTypeError => true
  | _ => false
  end.

(** [to_internal_value(self, data)] *)
Definition to_internal_value (self : Field Base) (data : value) : io value :=
  try_except
    (invoke (CallBaseToInternalValue data) (base_to_internal_value self data))
    (fun err =>
       match err with
       | ValidationError detail => Some (
           first ← pure (first_detail detail);
           if negb (String.eqb (code first) "no_match") then pure (Raise err)
           else
             try_except
               (queryset_lookup self {[ lookup_field (base self) := data ]} true)
               (fun e =>
                  if is_lookup_failure e
                  then Some (_ ← invoke (CallFail "does_not_exist")
                                   (fail self "does_not_exist");
                             mret VNone)
                  else None))
       | _ => None
       end).

(** *** NestedHyperlinkedIdentityField *)

(** The keywords of a call [f(name=v, **kwargs)]: a name given twice is a
    [TypeError]. *)
Definition keyword_call (name : string) (v : value)
    (kwargs : gmap string value) : result (gmap string value) :=
  match kwargs !! name with
  | Some _ => Raise TypeError
  | None => Ok (<[name := v]> kwargs)
  end.

(** [x is not None] *)
Definition is_not_none (x : value) : bool :=
  match x with
  | VNone => false
  | _ => true
  end.

(** [__init__(self, view_name=None, **kwargs)] *)
Definition identity_init (view_name : value) (kwargs : gmap string value)
    : io (Field Base) :=
  if is_not_none view_name then
    let kwargs := <["read_only" := VBool true]> kwargs in
    let kwargs := <["source" := VStr "*"]> kwargs in
    kwargs ← pure (keyword_call "view_name" view_name kwargs);
    init [] kwargs
  else pure (Raise (AssertionError "The `view_name` argument is required.")).

(** The methods of a field class other than its constructor. *)
Record methods := mkMethods {
  m_get_url : Field Base → value → string → Request → option string → io value;
  m_get_object : Field Base → string → list value → gmap string value → io value;
  m_use_pk_only_optimization : Field Base → bool;
  m_to_internal_value : Field Base → value → io value
}.

Definition NestedHyperlinkedRelatedField : methods :=
  mkMethods get_url get_object use_pk_only_optimization to_internal_value.

(** The subclass defines [__init__] only: every other method is looked up
    in its parent. *)
Definition NestedHyperlinkedIdentityField : methods :=
  NestedHyperlinkedRelatedField.

End Relations.

Arguments call {fw}.
Arguments CallBaseInit {fw} args kwargs.
Arguments CallReverse {fw} view_name kwargs request format.
Arguments CallBaseGetUrl {fw} obj view_name request format.
Arguments CallGetQueryset {fw}.
Arguments CallQuerysetGet {fw} qs kwargs.
Arguments CallBaseToInternalValue {fw} data.
Arguments CallFail {fw} key.
Arguments io {fw} A.
Arguments IO {fw A} calls outcome.
Arguments calls {fw A} i.
Arguments outcome {fw A} i.
Arguments methods {fw}.
Arguments mkMethods {fw}.
Arguments m_get_url {fw} m.
Arguments m_get_object {fw} m.
Arguments m_use_pk_only_optimization {fw} m.
Arguments m_to_internal_value {fw} m.

(** ** Vocabulary of the statements *)

(** Left fold of [getattr] over attribute names, starting from [o]. *)
Fixpoint fold_getattr (o : value) (names : list string) : result value :=
  match names with
  | [] => Ok o
  | n :: names' => o' ← getattr o n; fold_getattr o' names'
  end.

(** The value of a dotted path on an object: the path is split on [__]
    and [getattr] is folded over the pieces. *)
Definition chain_value (obj : value) (path : string) : result value :=
  fold_getattr obj (split "__" path).

(** A dictionary of strings as a value. *)
Definition str_dict (entries : list (string * string)) : value :=
  VDict (prod_map id VStr <$> entries).

(** The items of a dictionary of strings: the value is the dictionary
    with these items, and no key occurs twice. *)
Definition str_items (d : value) (entries : list (string * string)) : Prop :=
  d = str_dict entries ∧ NoDup (entries.*1).

(** The evaluation returned a value. *)
Definition is_ok {A : Type} (r : result A) : bool :=
  match r with
  | Ok _ => true
  | Raise _ => false
  end.

(** Every dotted path of the entries resolves on the object. *)
Definition resolves (obj : value) (entries : list (string * string)) : bool :=
  forallb (fun kp => is_ok (chain_value obj kp.2)) entries.

(** The keyword dictionary has all the keys. *)
Definition has_keys (d : gmap string value) (keys : list string) : bool :=
  forallb (fun k => match d !! k with Some _ => true | None => false end) keys.

(** The fallback query of [to_internal_value]:
    [self.get_queryset().get] with the single keyword
    [lookup_field = data]. *)
Definition fallback_query `{fw : Framework} (self : Field Base) (data : value) : io value :=
  qs ← invoke CallGetQueryset (get_queryset self);
  invoke (CallQuerysetGet qs {[ lookup_field (base self) := data ]})
    (queryset_get qs {[ lookup_field (base self) := data ]}).





(** The values that are neither a dictionary nor an object: [None], the
    booleans, the integers and the strings. *)
Definition is_scalar (v : value) : bool :=
  match v with
  | VNone | VBool _ | VInt _ | VStr _ => true
  | VDict _ | VObj _ => false
  end.

(** The values without attributes that are not strings: they have no
    [split]. *)
Definition is_not_a_path (v : value) : bool :=
  match v with
  | VNone | VBool _ | VInt _ | VDict _ => true
  | VStr _ | VObj _ => false
  end.

(** [sep in s]: the separator occurs in the string. *)
Fixpoint occurs (sep s : string) : bool :=
  match s with
  | EmptyString => String.prefix sep s
  | String _ s' => String.prefix sep s || occurs sep s'
  end.

(** [s.endswith('_')] *)
Fixpoint ends_with_underscore (s : string) : bool :=
  match s with
  | EmptyString => false
  | String c EmptyString => String.eqb (String c EmptyString) "_"
  | String _ s' => ends_with_underscore s'
  end.

(** An attribute name that a dotted path can hold in any position: it
    has no [__] inside and does not end with an underscore. *)
Definition plain (name : string) : bool :=
  negb (occurs "__" name) && negb (ends_with_underscore name).

(** ** A stand-in framework for running the definitions *)

(** [d.get(k, dflt)] restricted to string values. *)
Definition kw_string (d : gmap string value) (k dflt : string) : string :=
  match d !! k with
  | Some (VStr s) => s
  | _ => dflt
  end.

(** A framework double.  Its base constructor reads [lookup_field] and
    [lookup_url_kwarg] from the keywords, [reverse] answers the view name
    between slashes, the base [get_url] answers a flat URL, and the base
    [to_internal_value] and the queryset answer what they are told to. *)
Definition stub_framework (converted found : result value) : Framework := {|
  Request := unit;
  QuerySet := unit;
  Base := string * string;
  base_init := fun _ kwargs =>
    let field := kw_string kwargs "lookup_field" "pk" in
    Ok (field, kw_string kwargs "lookup_url_kwarg" field);
  lookup_field := fst;
  lookup_url_kwarg := snd;
  reverse := fun _ view_name _ _ _ => Ok (VStr ("/" +:+ view_name +:+ "/"));
  base_get_url := fun _ _ _ _ _ => Ok (VStr "/flat/");
  get_queryset := fun _ => Ok tt;
  queryset_get := fun _ _ => found;
  base_to_internal_value := fun _ _ => converted;
  fail := fun _ key => Raise (ValidationError [mkErrorDetail "Invalid." key])
|}.

(** The framework double with a base conversion that finds no URL match
    and a queryset that finds the object [VInt 1]. *)
Definition stub : Framework :=
  stub_framework (Raise (ValidationError [mkErrorDetail "Invalid." "no_match"]))
    (Ok (VInt 1)).

(** The framework double whose base conversion finds no URL match and
    whose queryset finds nothing. *)
Definition missing_stub : Framework :=
  stub_framework (Raise (ValidationError [mkErrorDetail "Invalid." "no_match"]))
    (Raise ObjectDoesNotExist).

(** A comment [7] of the post [3] of the blog [1]. *)
Definition blog : value := VObj [("pk", Ok (VInt 1))].
Definition post : value := VObj [("pk", Ok (VInt 3)); ("blog", Ok blog)].
Definition comment : value := VObj [("pk", Ok (VInt 7)); ("post", Ok post)].

(** An unsaved comment, a comment whose post is missing, and one whose
    post cannot be loaded. *)
Definition unsaved_comment : value := VObj [("pk", Ok VNone); ("post", Ok post)].
Definition orphan_comment : value := VObj [("pk", Ok (VInt 7)); ("post", Ok VNone)].
Definition broken_comment : value :=
  VObj [("pk", Ok (VInt 7)); ("post", Raise (OtherError "OperationalError"))].

(** A comment without author whose post cannot be loaded, and an unsaved
    comment without post. *)
Definition unloadable_comment : value :=
  VObj [("pk", Ok (VInt 7)); ("post", Raise (OtherError "OperationalError"));
        ("author", Ok VNone)].
Definition unsaved_orphan_comment : value :=
  VObj [("pk", Ok VNone); ("post", Ok VNone)].

(** The field of a comment nested under posts under blogs. *)
Definition comment_lookups : list (string * string) :=
  [("post_pk", "post__pk"); ("blog_pk", "post__blog__pk")].
Definition comment_field : Field (string * string) :=
  mkField ("pk", "pk") (str_dict comment_lookups).

(** The URL arguments of the comment. *)
Definition comment_view_kwargs : gmap string value :=
  <["blog_pk" := VInt 1]> (<["post_pk" := VInt 3]> {["pk" := VInt 7]}).

(** The field of a comment nested under its post and under its author. *)
Definition authored_lookups : list (string * string) :=
  [("post_pk", "post__pk"); ("author_pk", "author__pk")].
Definition authored_field : Field (string * string) :=
  mkField ("pk", "pk") (str_dict authored_lookups).

(** A field whose parent URL keyword is the lookup URL keyword. *)
Definition clash_field : Field (string * string) :=
  mkField ("pk", "pk") (str_dict [("pk", "post__pk")]).

(** A field whose parent path is the lookup URL keyword. *)
Definition path_clash_field : Field (string * string) :=
  mkField ("pk", "pk") (str_dict [("post_pk", "pk")]).

(** A field looked up by a slug, which the comments do not have; a field
    whose [parent_lookup_kwargs] is [None]; a field with a path that is
    not a string; and the field of the comments with its entries in the
    other order. *)
Definition slug_field : Field (string * string) :=
  mkField ("slug", "slug") (str_dict comment_lookups).
Definition none_field : Field (string * string) := mkField ("pk", "pk") VNone.
Definition int_path_field : Field (string * string) :=
  mkField ("pk", "pk") (VDict [("post_pk", VInt 1)]).
Definition swapped_field : Field (string * string) :=
  mkField ("pk", "pk")
    (str_dict [("blog_pk", "post__blog__pk"); ("post_pk", "post__pk")]).

(** A reply [9] to the comment [7]. *)
Definition reply : value := VObj [("pk", Ok (VInt 9)); ("parent", Ok comment)].

(** Framework doubles whose base conversion succeeds, whose base
    conversion raises a [ValidationError] without detail, and whose
    queryset finds several objects. *)
Definition found_stub : Framework := stub_framework (Ok (VInt 5)) (Ok (VInt 1)).
Definition empty_detail_stub : Framework :=
  stub_framework (Raise (ValidationError [])) (Ok (VInt 1)).
Definition ambiguous_stub : Framework :=
  stub_framework (Raise (ValidationError [mkErrorDetail "Invalid." "no_match"]))
    (Raise (OtherError "MultipleObjectsReturned")).

(** ** setup.py: the version and the package lists *)

(** What the script takes from the operating system: [os.sep],
    [os.path.join], [os.path.exists], the list of the triples of
    [os.walk], and [open(path).read()]. *)
Record Os := {
  os_sep : string;
  os_path_join : string → string → string;
  os_path_exists : string → bool;
  os_walk : string → list (string * list string * list string);
  read_text : string → result string
}.

(** The characters the version pattern names: the two quotes and the
    newline. *)
Definition single_quote : Ascii.ascii := Ascii.ascii_of_nat 39.
Definition double_quote : Ascii.ascii := Ascii.ascii_of_nat 34.
Definition newline : Ascii.ascii := Ascii.ascii_of_nat 10.

(** The class of the two quotes, and its complement. *)
Definition is_quote (c : Ascii.ascii) : bool :=
  Ascii.eqb c single_quote || Ascii.eqb c double_quote.

(** What is left of [s] after the literal [p], when [s] starts with it. *)
Fixpoint strip_prefix (p s : string) : option string :=
  match p with
  | EmptyString => Some s
  | String a p' =>
      match s with
      | EmptyString => None
      | String b s' => if Ascii.eqb a b then strip_prefix p' s' else None
      end
  end.

(** The longest run of characters other than quotes at the start of [s],
    and what follows it. *)
Fixpoint span_unquoted (s : string) : string * string :=
  match s with
  | EmptyString => (EmptyString, EmptyString)
  | String c s' =>
      if is_quote c then (EmptyString, s)
      else let '(run, rest) := span_unquoted s' in (String c run, rest)
  end.

(** The pattern after its [^], matched at the start of [s]: the literal
    [__version__ = ], a quote, one or more characters other than quotes
    (as many as there are), a quote.  The result is group 1. *)
Definition match_version (s : string) : option string :=
  match strip_prefix "__version__ = " s with
  | Some (String q s1) =>
      if is_quote q then
        match span_unquoted s1 with
        | (String c run, String _ _) => Some (String c run)
        | _ => None
        end
      else None
  | _ => None
  end.

(** [re.search] of the pattern with [re.MULTILINE]: the match at the
    first position, at the start of the text or just after a newline,
    where there is one.  [line_start] tells whether [s] starts a line. *)
Fixpoint search_version (line_start : bool) (s : string) : option string :=
  match (if line_start then match_version s else None) with
  | Some v => Some v
  | None =>
      match s with
      | EmptyString => None
      | String c s' => search_version (Ascii.eqb c newline) s'
      end
  end.

(** [get_version(package)] *)
Definition get_version (os : Os) (package : string) : result string :=
  init_py ← read_text os (os_path_join os package "__init__.py");
  match search_version true init_py with
  | Some version => Ok version
  | None => Raise AttributeError
  end.

(** [get_packages(package)] *)
Definition get_packages (os : Os) (package : string) : list string :=
  flat_map
    (fun '(dirpath, dirnames, filenames) =>
       if os_path_exists os (os_path_join os dirpath "__init__.py")
       then [dirpath] else [])
    (os_walk os package).

(** [s.replace(old, new, 1)] *)
Fixpoint replace_first (old new s : string) : string :=
  match strip_prefix old s with
  | Some rest => new +:+ rest
  | None =>
      match s with
      | EmptyString => EmptyString
      | String c s' => String c (replace_first old new s')
      end
  end.

(** [get_package_data(package)] *)
Definition get_package_data (os : Os) (package : string)
    : gmap string (list string) :=
  let walk :=
    flat_map
      (fun '(dirpath, dirnames, filenames) =>
         if negb (os_path_exists os (os_path_join os dirpath "__init__.py"))
         then [(replace_first (package +:+ os_sep os) "" dirpath, filenames)]
         else [])
      (os_walk os package) in
  let filepaths :=
    fold_left
      (fun filepaths '(base, filenames) =>
         (filepaths ++ (os_path_join os base <$> filenames))%list)
      walk ["py.typed"] in
  {[ package := filepaths ]}.

(** The text has no quote. *)
Fixpoint quote_free (s : string) : bool :=
  match s with
  | EmptyString => true
  | String c s' => negb (is_quote c) && quote_free s'
  end.

(** The literal and the text differ at a place where both have a
    character. *)
Fixpoint clashes (p s : string) : bool :=
  match p, s with
  | String a p', String b s' => if Ascii.eqb a b then clashes p' s' else true
  | _, _ => false
  end.

(** No line of the text, taken up to its end, can start a version
    assignment; [line_start] tells whether the text starts a line. *)
Fixpoint version_free (line_start : bool) (s : string) : bool :=
  match s with
  | EmptyString => true
  | String c s' =>
      (negb line_start || clashes "__version__ = " s)
      && version_free (Ascii.eqb c newline) s'
  end.

(** What follows the text starts a line. *)
Fixpoint ends_line (line_start : bool) (s : string) : bool :=
  match s with
  | EmptyString => line_start
  | String c s' => ends_line (Ascii.eqb c newline) s'
  end.

(** No line of the text starts with [__version__ = ]. *)
Fixpoint version_absent (line_start : bool) (s : string) : bool :=
  (negb line_start
   || match strip_prefix "__version__ = " s with Some _ => false | None => true end)
  && match s with
     | EmptyString => true
     | String c s' => version_absent (Ascii.eqb c newline) s'
     end.

(** A line break as a string. *)
Definition nl : string := String newline EmptyString.

(** The directories [get_package_data] keeps, with the files of each. *)
Definition data_directories (os : Os) (package : string)
    : list (string * list string) :=
  flat_map
    (fun '(dirpath, dirnames, filenames) =>
       if negb (os_path_exists os (os_path_join os dirpath "__init__.py"))
       then [(replace_first (package +:+ os_sep os) "" dirpath, filenames)]
       else [])
    (os_walk os package).

(** A stand-in operating system: a package with a directory of
    templates, and a directory of documents that is no package. *)
Definition sample_init_py : string :=
  "__author__ = 'alanjds'" +:+ nl +:+ "__version__ = '0.94.1'" +:+ nl.
Definition sample_os : Os := {|
  os_sep := "/";
  os_path_join := fun a b => a +:+ "/" +:+ b;
  os_path_exists := fun path =>
    String.eqb path "rest_framework_nested/__init__.py";
  os_walk := fun top =>
    if String.eqb top "rest_framework_nested" then
      [("rest_framework_nested", ["templates"],
        ["__init__.py"; "py.typed"; "relations.py"]);
       ("rest_framework_nested/templates", [], ["base.html"])]
    else if String.eqb top "docs" then [("docs", [], ["index.md"])]
    else [];
  read_text := fun path =>
    if String.eqb path "rest_framework_nested/__init__.py"
    then Ok sample_init_py
    else if String.eqb path "docs/__init__.py" then Ok "import os"
    else Raise (OtherError "FileNotFoundError")
|}.

(** ** Properties *)

(** *** Strings, attribute chains and dictionaries *)

Example split_parent_pk : split "__" "parent__pk" = ["parent"; "pk"].
Proof. reflexivity. Qed.

Example split_three : split "__" "parent__super__pk" = ["parent"; "super"; "pk"].
Proof. reflexivity. Qed.

Example split_odd : split "__" "a___b" = ["a"; "_b"].
Proof. reflexivity. Qed.

Example split_none : split "__" "pk" = ["pk"].
Proof. reflexivity. Qed.

Example split_empty : split "__" "" = [""].
Proof. reflexivity. Qed.

Example split_trailing : split "__" "a__" = ["a"; ""].
Proof. reflexivity. Qed.

Lemma split_go_nonempty sep s : ∀ skip cur, split_go sep skip cur s ≠ [].
Proof.
  induction s as [|c s IH]; intros skip cur; cbn [split_go]; [done|].
  destruct skip; [|apply IH].
  destruct (String.prefix sep (String c s)); [done | apply IH].
Qed.

Lemma join_cons sep p ps : ps ≠ [] → join sep (p :: ps) = p +:+ sep +:+ join sep ps.
Proof. destruct ps; [contradiction | reflexivity]. Qed.

Lemma append_cons (x : Ascii.ascii) (a b : string) :
  String x a +:+ b = String x (a +:+ b).
Proof. reflexivity. Qed.

Lemma append_assoc (a b c : string) : (a +:+ b) +:+ c = a +:+ (b +:+ c).
Proof.
  induction a as [|x a IH]; [reflexivity|].
  rewrite !append_cons, IH. reflexivity.
Qed.

Lemma append_empty_r (a : string) : a +:+ "" = a.
Proof.
  induction a as [|x a IH]; [reflexivity|]. rewrite append_cons, IH. reflexivity.
Qed.

Lemma join_split_go (n : nat) : ∀ s cur, (String.length s ≤ n)%nat →
  join "__" (split_go "__" 0 cur s) = cur +:+ s.
Proof.
  induction n as [|n IH]; intros s cur Hlen.
  - destruct s; [|cbn in Hlen; lia]. cbn. symmetry. apply append_empty_r.
  - destruct s as [|c s]; [cbn; symmetry; apply append_empty_r|].
    cbn in Hlen. cbn [split_go].
    destruct (String.prefix "__" (String c s)) eqn:Hpre.
    + cbn [String.prefix] in Hpre.
      destruct (Ascii.ascii_dec _ c) as [<-|]; [|discriminate].
      destruct s as [|c' s]; [discriminate|]. cbn [String.prefix] in Hpre.
      destruct (Ascii.ascii_dec _ c') as [<-|]; [|discriminate].
      cbn [String.length Nat.sub split_go].
      rewrite join_cons by apply split_go_nonempty.
      rewrite IH by (cbn in Hlen; lia). reflexivity.
    + rewrite IH by lia. rewrite append_assoc. reflexivity.
Qed.

(** Joining the pieces of a path with [__] gives the path back. *)
Lemma join_split (s : string) : join "__" (split "__" s) = s.
Proof. apply (join_split_go (String.length s)). lia. Qed.

Lemma reduce_from_getattr (names : list string) (o : value) :
  reduce_from py_getattr o (VStr <$> names) = fold_getattr o names.
Proof.
  revert o. induction names as [|n names IH]; intros o; [reflexivity|].
  cbn. destruct (getattr o n) as [o'|e]; cbn; [apply IH | reflexivity].
Qed.

Lemma reduce_getattr (obj : value) (names : list string) :
  reduce py_getattr (obj :: (VStr <$> names)) = fold_getattr obj names.
Proof. apply reduce_from_getattr. Qed.

Lemma assoc_str_dict (entries : list (string * string)) (k : string) :
  assoc k (prod_map id VStr <$> entries) = VStr <$> assoc k entries.
Proof.
  induction entries as [|[k' p] entries IH]; [reflexivity|].
  cbn. destruct (String.eqb k k'); [reflexivity | apply IH].
Qed.

Lemma py_keys_str_dict (entries : list (string * string)) :
  py_keys (str_dict entries) = Ok (entries.*1).
Proof.
  unfold str_dict, py_keys. f_equal.
  induction entries as [|[k p] entries IH]; [reflexivity|].
  cbn. f_equal. apply IH.
Qed.

Lemma py_getitem_str_dict (entries : list (string * string)) (k p : string) :
  assoc k entries = Some p → py_getitem (str_dict entries) k = Ok (VStr p).
Proof.
  intros H. unfold py_getitem, str_dict. rewrite assoc_str_dict, H. reflexivity.
Qed.

Lemma assoc_is_Some {A : Type} (l : list (string * A)) (k : string) :
  k ∈ l.*1 → is_Some (assoc k l).
Proof.
  induction l as [|[k' a] l IH]; cbn.
  - intros H. inversion H.
  - intros H. destruct (String.eqb_spec k k') as [->|Hne]; [eauto|].
    apply IH. apply elem_of_cons in H as [H|H]; [contradiction | exact H].
Qed.

Lemma assoc_elem_of {A : Type} (l : list (string * A)) (k : string) (a : A) :
  assoc k l = Some a → k ∈ l.*1.
Proof.
  induction l as [|[k' a'] l IH]; cbn; [discriminate|].
  destruct (String.eqb_spec k k') as [->|Hne]; intros H.
  - apply elem_of_cons. left. reflexivity.
  - apply elem_of_cons. right. apply IH, H.
Qed.

Lemma assoc_NoDup {A : Type} (l : list (string * A)) (k : string) (a : A) :
  NoDup (l.*1) → (k, a) ∈ l → assoc k l = Some a.
Proof.
  induction l as [|[k' a'] l IH]; cbn; intros Hnd Hin.
  - inversion Hin.
  - apply NoDup_cons in Hnd as [Hk' Hnd].
    apply elem_of_cons in Hin as [Heq|Hin].
    + injection Heq as -> ->. rewrite String.eqb_refl. reflexivity.
    + destruct (String.eqb_spec k k') as [->|Hne]; [|apply IH; assumption].
      exfalso. apply Hk'. apply list_elem_of_fmap. exists (k', a). split; [reflexivity | exact Hin].
Qed.

Lemma assoc_elem_of_pair {A : Type} (l : list (string * A)) (k : string) (a : A) :
  assoc k l = Some a → (k, a) ∈ l.
Proof.
  induction l as [|[k' a'] l IH]; cbn; [discriminate|].
  destruct (String.eqb_spec k k') as [->|Hne]; intros H.
  - injection H as ->. apply elem_of_cons. left. reflexivity.
  - apply elem_of_cons. right. apply IH, H.
Qed.

Lemma resolves_elem_of (obj : value) (entries : list (string * string))
    (k p : string) :
  resolves obj entries = true → (k, p) ∈ entries →
  ∃ w, chain_value obj p = Ok w.
Proof.
  unfold resolves. rewrite forallb_forall. intros H Hin.
  apply list_elem_of_In, H in Hin.
  change (is_ok (chain_value obj p) = true) in Hin.
  destruct (chain_value obj p) as [w|e]; [eauto | discriminate Hin].
Qed.

Lemma has_keys_elem_of (d : gmap string value) (keys : list string) (k : string) :
  has_keys d keys = true → k ∈ keys → is_Some (d !! k).
Proof.
  unfold has_keys. rewrite forallb_forall. intros H Hin.
  apply list_elem_of_In, H in Hin. destruct (d !! k); [eauto | discriminate].
Qed.

Section Properties.
Context `{fw : Framework}.

(** *** Computations *)

Lemma io_eta {A : Type} (m : io A) : IO (calls m) (outcome m) = m.
Proof. destruct m. reflexivity. Qed.

Lemma bind_pure_ok {A B : Type} (a : A) (f : A → io B) :
  (pure (Ok a) ≫= f) = f a.
Proof. unfold mbind, io_bind, pure. cbn. apply io_eta. Qed.

Lemma bind_pure_raise {A B : Type} (e : exn) (f : A → io B) :
  (pure (Raise e) ≫= f) = pure (Raise e).
Proof. reflexivity. Qed.

Lemma bind_invoke_ok {A B : Type} (c : call) (a : A) (f : A → io B) :
  (invoke c (Ok a) ≫= f) = IO (c :: calls (f a)) (outcome (f a)).
Proof. reflexivity. Qed.

Lemma bind_invoke_raise {A B : Type} (c : call) (e : exn) (f : A → io B) :
  (invoke c (Raise e) ≫= f) = invoke c (Raise e).
Proof. reflexivity. Qed.

(** *** The constructors *)

(** C9.  The constructor takes [parent_lookup_kwargs] out of the keywords
    and keeps it on the instance, the class attribute
    [{'parent_pk': 'parent__pk'}] standing in when the keyword is absent;
    it calls the base constructor once, with the positional arguments as
    given and with keywords that hold no [parent_lookup_kwargs] and agree
    with the given ones on every other name; the instance is built from
    what the base constructor returns. *)
Theorem init_pops_parent_lookup_kwargs (args : list value)
    (kwargs : gmap string value) :
  ∃ passed : gmap string value,
    calls (init args kwargs) = [CallBaseInit args passed]
    ∧ passed !! "parent_lookup_kwargs" = None
    ∧ (∀ k, k ≠ "parent_lookup_kwargs" → passed !! k = kwargs !! k)
    ∧ outcome (init args kwargs) =
        (b ← base_init args passed;
         mret (mkField b
                 (default (VDict [("parent_pk", VStr "parent__pk")])
                    (kwargs !! "parent_lookup_kwargs")))).
Proof.
  exists (delete "parent_lookup_kwargs" kwargs). unfold init.
  split; [|split; [|split]].
  - destruct (base_init args (delete "parent_lookup_kwargs" kwargs)); reflexivity.
  - apply lookup_delete_eq.
  - intros k Hk. apply lookup_delete_ne. congruence.
  - destruct (base_init args (delete "parent_lookup_kwargs" kwargs)); reflexivity.
Qed.

(** *** get_url *)

Lemma is_unsaved_pk (obj pk : value) :
  getattr obj "pk" = Ok pk → is_unsaved obj = Ok (in_none_or_empty pk).
Proof.
  intros Hpk. unfold is_unsaved, hasattr. rewrite Hpk.
  reflexivity.
Qed.

Lemma get_url_parents_ok (self : Field Base) (obj : value) (view_name : string)
    (request : Request) (format : option string)
    (entries : list (string * string)) (k p : string) (w : value)
    (keys : list string) (kwargs : gmap string value) :
  parent_lookup_kwargs self = str_dict entries →
  assoc k entries = Some p →
  chain_value obj p = Ok w →
  get_url_parents self obj view_name request format (k :: keys) kwargs =
  get_url_parents self obj view_name request format keys (<[k := w]> kwargs).
Proof.
  intros Hd Hk Hw. cbn [get_url_parents].
  rewrite Hd, (py_getitem_str_dict _ _ _ Hk). cbn [py_split].
  rewrite reduce_getattr. fold (chain_value obj p). rewrite Hw. reflexivity.
Qed.

Lemma get_url_parents_raise (self : Field Base) (obj : value) (view_name : string)
    (request : Request) (format : option string)
    (entries : list (string * string)) (k p : string) (e : exn)
    (keys : list string) (kwargs : gmap string value) :
  parent_lookup_kwargs self = str_dict entries →
  assoc k entries = Some p →
  chain_value obj p = Raise e →
  get_url_parents self obj view_name request format (k :: keys) kwargs =
  match e with
  | AttributeError =>
      invoke (CallBaseGetUrl obj view_name request format)
        (base_get_url self obj view_name request format)
  | _ => pure (Raise e)
  end.
Proof.
  intros Hd Hk He. cbn [get_url_parents].
  rewrite Hd, (py_getitem_str_dict _ _ _ Hk). cbn [py_split].
  rewrite reduce_getattr. fold (chain_value obj p). rewrite He.
  destruct e; reflexivity.
Qed.

(** The loop over keys whose paths all resolve: it stores each value
    under its key and leaves the other keys alone. *)
Lemma get_url_parents_app (self : Field Base) (obj : value) (view_name : string)
    (request : Request) (format : option string)
    (entries : list (string * string)) (rest : list string) :
  parent_lookup_kwargs self = str_dict entries →
  ∀ (done : list string) (kwargs : gmap string value),
    (∀ k, k ∈ done → ∃ p w, assoc k entries = Some p ∧ chain_value obj p = Ok w) →
    ∃ D : gmap string value,
      get_url_parents self obj view_name request format (done ++ rest) kwargs =
      get_url_parents self obj view_name request format rest D
      ∧ (∀ k p w, k ∈ done → assoc k entries = Some p →
                  chain_value obj p = Ok w → D !! k = Some w)
      ∧ (∀ k, k ∉ done → D !! k = kwargs !! k).
Proof.
  intros Hd done. induction done as [|k0 done IH]; intros kwargs Hres.
  - exists kwargs. split; [reflexivity|]. split; [|reflexivity].
    intros k p w Hin. inversion Hin.
  - destruct (Hres k0) as (p0 & w0 & Hk0 & Hw0); [apply elem_of_cons; auto|].
    destruct (IH (<[k0 := w0]> kwargs)) as (D & Hrun & Hin & Hout).
    { intros k Hk. apply Hres. apply elem_of_cons. auto. }
    exists D. split; [|split].
    + cbn [app]. rewrite (get_url_parents_ok _ _ _ _ _ _ _ _ _ _ _ Hd Hk0 Hw0).
      exact Hrun.
    + intros k p w Hk Hp Hw.
      destruct (decide (k ∈ done)) as [Hdone|Hdone]; [eauto|].
      apply elem_of_cons in Hk as [->|Hk]; [|contradiction].
      rewrite (Hout _ Hdone), lookup_insert_eq. congruence.
    + intros k Hk. apply not_elem_of_cons in Hk as [Hne Hk].
      rewrite (Hout _ Hk). apply lookup_insert_ne. congruence.
Qed.

Lemma get_url_running (self : Field Base) (obj : value) (view_name : string)
    (request : Request) (format : option string)
    (entries : list (string * string)) (v : value) :
  parent_lookup_kwargs self = str_dict entries →
  is_unsaved obj = Ok false →
  getattr obj (lookup_field (base self)) = Ok v →
  get_url self obj view_name request format =
  get_url_parents self obj view_name request format (entries.*1)
    {[ lookup_url_kwarg (base self) := v ]}.
Proof.
  intros Hd Hpk Hv. unfold get_url.
  rewrite Hpk, bind_pure_ok, Hv, bind_pure_ok, Hd, py_keys_str_dict, bind_pure_ok.
  reflexivity.
Qed.

(** C7.  When the object has a [pk] attribute whose value is [None] or the
    empty string, [get_url] returns [None] and has called nothing on the
    framework: there is no URL reversal and no call of the base
    [get_url].  The equation holds for every field, whatever its
    [parent_lookup_kwargs], and for every object, also one whose parent
    attributes raise when read: no parent attribute is traversed. *)
Theorem get_url_unsaved (self : Field Base) (obj : value) (view_name : string)
    (request : Request) (format : option string) (pk : value) :
  getattr obj "pk" = Ok pk →
  in_none_or_empty pk = true →
  get_url self obj view_name request format = IO [] (Ok VNone).
Proof.
  intros Hpk Hempty. unfold get_url.
  rewrite (is_unsaved_pk _ _ Hpk), Hempty. reflexivity.
Qed.

Lemma get_url_resolved (self : Field Base) (obj : value) (view_name : string)
    (request : Request) (format : option string)
    (entries : list (string * string)) (v : value) :
  str_items (parent_lookup_kwargs self) entries →
  is_unsaved obj = Ok false →
  getattr obj (lookup_field (base self)) = Ok v →
  resolves obj entries = true →
  ∃ D : gmap string value,
    get_url self obj view_name request format =
      invoke (CallReverse view_name D request format)
        (reverse self view_name D request format)
    ∧ (∀ k p w, (k, p) ∈ entries → chain_value obj p = Ok w → D !! k = Some w)
    ∧ (lookup_url_kwarg (base self) ∉ entries.*1 →
       D !! lookup_url_kwarg (base self) = Some v)
    ∧ (∀ k, is_Some (D !! k) →
            k = lookup_url_kwarg (base self) ∨ k ∈ entries.*1).
Proof.
  intros [Hd Hnd] Hpk Hv Hres.
  rewrite (get_url_running _ _ _ _ _ _ _ Hd Hpk Hv).
  destruct (get_url_parents_app self obj view_name request format entries []
              Hd (entries.*1) {[ lookup_url_kwarg (base self) := v ]})
    as (D & Hrun & Hin & Hout).
  { intros k Hk. destruct (assoc_is_Some entries k Hk) as [p Hp].
    destruct (resolves_elem_of obj entries k p Hres) as [w Hw].
    - apply assoc_elem_of_pair, Hp.
    - eauto. }
  exists D. rewrite app_nil_r in Hrun. split; [exact Hrun|]. split; [|split].
  - intros k p w Hkp Hw.
    apply (Hin k p w); [|apply assoc_NoDup; assumption|exact Hw].
    apply list_elem_of_fmap. exists (k, p). split; [reflexivity | exact Hkp].
  - intros Hfresh. rewrite (Hout _ Hfresh). apply lookup_singleton_eq.
  - intros k Hk. destruct (decide (k ∈ entries.*1)) as [|Hout']; [auto|].
    left. rewrite (Hout _ Hout') in Hk.
    destruct (decide (lookup_url_kwarg (base self) = k)) as [|Hne]; [congruence|].
    rewrite lookup_singleton_ne in Hk by exact Hne. destruct Hk; discriminate.
Qed.

(** The traversal stops at the first entry whose path does not resolve:
    on [AttributeError] the base [get_url] answers, any other exception
    ends [get_url]. *)
Lemma get_url_first_failure (self : Field Base) (obj : value) (view_name : string)
    (request : Request) (format : option string)
    (entries done rest : list (string * string)) (k p : string) (v : value)
    (e : exn) :
  str_items (parent_lookup_kwargs self) entries →
  is_unsaved obj = Ok false →
  getattr obj (lookup_field (base self)) = Ok v →
  entries = (done ++ (k, p) :: rest)%list →
  resolves obj done = true →
  chain_value obj p = Raise e →
  get_url self obj view_name request format =
    match e with
    | AttributeError =>
        invoke (CallBaseGetUrl obj view_name request format)
          (base_get_url self obj view_name request format)
    | _ => pure (Raise e)
    end.
Proof.
  intros [Hd Hnd] Hpk Hv Hsplit Hres Hp.
  rewrite (get_url_running _ _ _ _ _ _ _ Hd Hpk Hv).
  assert (Hall : ∀ k' p', (k', p') ∈ entries → assoc k' entries = Some p')
    by (intros; apply assoc_NoDup; assumption).
  subst entries. rewrite fmap_app, fmap_cons.
  destruct (get_url_parents_app self obj view_name request format
              (done ++ (k, p) :: rest) ((k, p).1 :: rest.*1) Hd (done.*1)
              {[ lookup_url_kwarg (base self) := v ]})
    as (D & Hrun & _).
  { intros k' Hk'. apply list_elem_of_fmap in Hk' as ([k1 p1] & -> & Hin).
    destruct (resolves_elem_of obj done k1 p1 Hres Hin) as [w Hw].
    exists p1, w. split; [|exact Hw].
    apply Hall. apply elem_of_app. left. exact Hin. }
  rewrite Hrun.
  apply (get_url_parents_raise _ _ _ _ _ _ k p e _ _ Hd); [|exact Hp].
  apply Hall. apply elem_of_app. right. apply elem_of_cons. left. reflexivity.
Qed.

(** C1 (amended).  For an object with a non-empty primary key on which
    the path of every entry of [parent_lookup_kwargs] resolves, [get_url]
    makes one framework call, [reverse(view_name, kwargs=D, request,
    format)], and returns its result.  The dictionary [D] maps each parent
    URL keyword to the value of its dotted path on the object (the path
    split on [__], [getattr] folded over the pieces from the object), maps
    [lookup_url_kwarg] to [getattr(obj, lookup_field)] unless
    [lookup_url_kwarg] is itself a parent URL keyword, and has no other
    key. *)
Theorem get_url_reverses (self : Field Base) (obj : value) (view_name : string)
    (request : Request) (format : option string)
    (entries : list (string * string)) (v : value) :
  str_items (parent_lookup_kwargs self) entries →
  is_unsaved obj = Ok false →
  getattr obj (lookup_field (base self)) = Ok v →
  resolves obj entries = true →
  ∃ D : gmap string value,
    get_url self obj view_name request format =
      invoke (CallReverse view_name D request format)
        (reverse self view_name D request format)
    ∧ (∀ k p w, (k, p) ∈ entries → chain_value obj p = Ok w → D !! k = Some w)
    ∧ (lookup_url_kwarg (base self) ∉ entries.*1 →
       D !! lookup_url_kwarg (base self) = Some v)
    ∧ (∀ k, is_Some (D !! k) →
            k = lookup_url_kwarg (base self) ∨ k ∈ entries.*1).
Proof. apply get_url_resolved. Qed.

(** C8 (amended).  For an object with a non-empty primary key whose
    [lookup_field] resolves: when the first declared dotted path that
    does not resolve on the object raises [AttributeError] (the paths of
    the entries before it resolve), [get_url] makes one framework call,
    the base class [get_url] with the same
    [(obj, view_name, request, format)], and returns its result: the
    keywords gathered until then are dropped and [reverse] is not
    called. *)
Theorem get_url_not_nested (self : Field Base) (obj : value) (view_name : string)
    (request : Request) (format : option string)
    (entries done rest : list (string * string)) (k p : string) (v : value) :
  str_items (parent_lookup_kwargs self) entries →
  is_unsaved obj = Ok false →
  getattr obj (lookup_field (base self)) = Ok v →
  entries = (done ++ (k, p) :: rest)%list →
  resolves obj done = true →
  chain_value obj p = Raise AttributeError →
  get_url self obj view_name request format =
    invoke (CallBaseGetUrl obj view_name request format)
      (base_get_url self obj view_name request format).
Proof.
  intros Hitems Hpk Hv Hsplit Hres Hp.
  apply (get_url_first_failure _ _ _ _ _ _ _ _ _ _ _ _ Hitems Hpk Hv Hsplit Hres Hp).
Qed.

(** *** get_object *)

(** The loop of [get_object] over a dictionary of strings, when
    [view_kwargs] has all the keys: a name that is the path of no key
    keeps its value, and a name that is the path of a key holds the
    [view_kwargs] value of a key with that path. *)
Lemma get_object_parents_spec (self : Field Base)
    (view_kwargs : gmap string value) (entries : list (string * string)) :
  parent_lookup_kwargs self = str_dict entries →
  ∀ (keys : list string) (q0 : gmap string value) (strs : bool),
    (∀ k, k ∈ keys → is_Some (assoc k entries) ∧ is_Some (view_kwargs !! k)) →
    ∃ q : gmap string value,
      get_object_parents self view_kwargs keys q0 strs = Ok (q, strs)
      ∧ (∀ x, (∀ k, k ∈ keys → assoc k entries ≠ Some x) → q !! x = q0 !! x)
      ∧ (∀ x k, k ∈ keys → assoc k entries = Some x →
           ∃ k', k' ∈ keys ∧ assoc k' entries = Some x
                 ∧ q !! x = view_kwargs !! k').
Proof.
  intros Hd keys. induction keys as [|k0 keys IH]; intros q0 strs Hkeys.
  - exists q0. split; [reflexivity|]. split; [reflexivity|].
    intros x k Hin. inversion Hin.
  - destruct (Hkeys k0) as [[p0 Hp0] [val0 Hval0]]; [apply elem_of_cons; auto|].
    destruct (IH (<[p0 := val0]> q0) strs) as (q & Hrun & Hkeep & Hset).
    { intros k Hk. apply Hkeys. apply elem_of_cons. auto. }
    exists q. split; [|split].
    + cbn [get_object_parents]. unfold kw_getitem. rewrite Hval0.
      rewrite Hd, (py_getitem_str_dict _ _ _ Hp0). exact Hrun.
    + intros x Hx. rewrite Hkeep.
      * apply lookup_insert_ne. intros ->. apply (Hx k0); [apply elem_of_cons; auto|].
        exact Hp0.
      * intros k Hk. apply Hx. apply elem_of_cons. auto.
    + intros x k Hk Hkx.
      destruct (decide (Exists (fun k' => assoc k' entries = Some x) keys))
        as [Hex|Hnex].
      * apply Exists_exists in Hex as (k1 & Hk1 & Hk1x).
        destruct (Hset x k1 Hk1 Hk1x) as (k' & Hk' & Hk'x & Hq).
        exists k'. split; [apply elem_of_cons; auto|]. split; assumption.
      * assert (k = k0) as ->.
        { apply elem_of_cons in Hk as [->|Hk]; [reflexivity|].
          exfalso. apply Hnex. apply Exists_exists. eauto. }
        assert (x = p0) as -> by congruence.
        exists k0. split; [apply elem_of_cons; auto|]. split; [exact Hp0|].
        rewrite Hkeep, lookup_insert_eq; [congruence|].
        intros k Hk' Hkp. apply Hnex. apply Exists_exists. eauto.
Qed.

Lemma get_object_spec (self : Field Base) (view_name : string)
    (view_args : list value) (view_kwargs : gmap string value)
    (entries : list (string * string)) :
  parent_lookup_kwargs self = str_dict entries →
  has_keys view_kwargs (lookup_url_kwarg (base self) :: entries.*1) = true →
  ∃ q : gmap string value,
    get_object self view_name view_args view_kwargs =
      (qs ← invoke CallGetQueryset (get_queryset self);
       invoke (CallQuerysetGet qs q) (queryset_get qs q))
    ∧ (∀ x, (∀ k, k ∈ entries.*1 → assoc k entries ≠ Some x) →
            q !! x = ({[ lookup_url_kwarg (base self) :=
                           default VNone (view_kwargs !! lookup_url_kwarg (base self)) ]}
                      : gmap string value) !! x)
    ∧ (∀ x k, k ∈ entries.*1 → assoc k entries = Some x →
         ∃ k', k' ∈ entries.*1 ∧ assoc k' entries = Some x
               ∧ q !! x = view_kwargs !! k').
Proof.
  intros Hd Hkeys.
  destruct (has_keys_elem_of _ _ (lookup_url_kwarg (base self)) Hkeys)
    as [val Hval]; [apply elem_of_cons; auto|].
  destruct (get_object_parents_spec self view_kwargs entries Hd (entries.*1)
              {[ lookup_url_kwarg (base self) := val ]} true)
    as (q & Hrun & Hkeep & Hset).
  { intros k Hk. split; [apply assoc_is_Some, Hk|].
    apply (has_keys_elem_of _ _ _ Hkeys). apply elem_of_cons. auto. }
  exists q. rewrite Hval. split; [|split; assumption].
  unfold get_object, kw_getitem. rewrite Hval, bind_pure_ok, Hd, py_keys_str_dict.
  rewrite bind_pure_ok, Hrun, bind_pure_ok. reflexivity.
Qed.

(** C2 (amended).  When [view_kwargs] holds [lookup_url_kwarg] and every
    key of [parent_lookup_kwargs], [get_object] calls [get_queryset()] and
    then [get] on its result with the keywords [q], and returns what [get]
    returns.  The keys of [q] are [lookup_url_kwarg] and the dotted paths.
    [q] maps every dotted path to [view_kwargs[url_kwarg]] for an entry
    [(url_kwarg, dotted_path)] with that path, hence for each entry when
    the dotted paths are pairwise distinct; and it maps
    [lookup_url_kwarg] to [view_kwargs[lookup_url_kwarg]] unless
    [lookup_url_kwarg] is itself a dotted path. *)
Theorem get_object_filters (self : Field Base) (view_name : string)
    (view_args : list value) (view_kwargs : gmap string value)
    (entries : list (string * string)) :
  str_items (parent_lookup_kwargs self) entries →
  has_keys view_kwargs (lookup_url_kwarg (base self) :: entries.*1) = true →
  ∃ q : gmap string value,
    get_object self view_name view_args view_kwargs =
      (qs ← invoke CallGetQueryset (get_queryset self);
       invoke (CallQuerysetGet qs q) (queryset_get qs q))
    ∧ (lookup_url_kwarg (base self) ∉ entries.*2 →
       q !! lookup_url_kwarg (base self) =
       view_kwargs !! lookup_url_kwarg (base self))
    ∧ (∀ k p, (k, p) ∈ entries →
         ∃ k', (k', p) ∈ entries ∧ q !! p = view_kwargs !! k')
    ∧ (NoDup (entries.*2) →
       ∀ k p, (k, p) ∈ entries → q !! p = view_kwargs !! k)
    ∧ (∀ x, is_Some (q !! x) →
            x = lookup_url_kwarg (base self) ∨ x ∈ entries.*2).
Proof.
  intros [Hd Hnd] Hkeys.
  destruct (get_object_spec self view_name view_args view_kwargs entries Hd Hkeys)
    as (q & Hrun & Hkeep & Hset).
  destruct (has_keys_elem_of _ _ (lookup_url_kwarg (base self)) Hkeys)
    as [val Hval]; [apply elem_of_cons; auto|].
  assert (Hpath : ∀ k x, assoc k entries = Some x → x ∈ entries.*2).
  { intros k x Hk. apply list_elem_of_fmap. exists (k, x).
    split; [reflexivity | apply assoc_elem_of_pair, Hk]. }
  assert (Hsome : ∀ k p, (k, p) ∈ entries →
            ∃ k', (k', p) ∈ entries ∧ q !! p = view_kwargs !! k').
  { intros k p Hkp.
    assert (Hk : k ∈ entries.*1).
    { apply list_elem_of_fmap. exists (k, p). split; [reflexivity | exact Hkp]. }
    destruct (Hset p k Hk (assoc_NoDup _ _ _ Hnd Hkp)) as (k' & Hk' & Hk'p & Hq).
    exists k'. split; [apply assoc_elem_of_pair, Hk'p | exact Hq]. }
  exists q. split; [exact Hrun|]. split; [|split; [exact Hsome|split]].
  - intros Hfresh. rewrite Hkeep, Hval; [apply lookup_singleton_eq|].
    intros k _ Hk. apply Hfresh. apply (Hpath k), Hk.
  - intros Hpaths k p Hkp.
    destruct (Hsome k p Hkp) as (k' & Hk'p & Hq).
    rewrite Hq. f_equal.
    apply list_elem_of_lookup in Hkp as [i Hi], Hk'p as [j Hj].
    assert (i = j) as ->.
    { apply (NoDup_lookup _ _ _ p Hpaths); rewrite list_lookup_fmap.
      - rewrite Hi. reflexivity.
      - rewrite Hj. reflexivity. }
    congruence.
  - intros x Hx.
    destruct (decide (Exists (fun k => assoc k entries = Some x) (entries.*1)))
      as [Hex|Hnex].
    + right. apply Exists_exists in Hex as (k & _ & Hk). apply (Hpath k), Hk.
    + left. rewrite Hkeep in Hx.
      * destruct (decide (lookup_url_kwarg (base self) = x)) as [|Hne]; [congruence|].
        rewrite lookup_singleton_ne in Hx by exact Hne. destruct Hx; discriminate.
      * intros k Hk Hkx. apply Hnex. apply Exists_exists. eauto.
Qed.

(** C3 (amended).  Round trip.  For an object with a non-empty primary
    key on which every declared dotted path resolves, [get_url] passes a
    dictionary [D] to [reverse], and [get_object] given [D] as
    [view_kwargs] queries [get] with keywords [q] that are exactly the
    ancestor filters of the object: every declared dotted path is bound
    to its value on the object, [lookup_url_kwarg] is bound to
    [getattr(obj, lookup_field)] provided it is neither a parent URL
    keyword nor a declared dotted path, and [q] has no keyword besides
    [lookup_url_kwarg] and the declared dotted paths. *)
Theorem get_url_get_object_round_trip (self : Field Base) (obj : value)
    (view_name : string) (request : Request) (format : option string)
    (view_args : list value) (entries : list (string * string)) (v : value) :
  str_items (parent_lookup_kwargs self) entries →
  is_unsaved obj = Ok false →
  getattr obj (lookup_field (base self)) = Ok v →
  resolves obj entries = true →
  ∃ D q : gmap string value,
    get_url self obj view_name request format =
      invoke (CallReverse view_name D request format)
        (reverse self view_name D request format)
    ∧ get_object self view_name view_args D =
        (qs ← invoke CallGetQueryset (get_queryset self);
         invoke (CallQuerysetGet qs q) (queryset_get qs q))
    ∧ (∀ k p w, (k, p) ∈ entries → chain_value obj p = Ok w → q !! p = Some w)
    ∧ (lookup_url_kwarg (base self) ∉ entries.*1 →
       lookup_url_kwarg (base self) ∉ entries.*2 →
       q !! lookup_url_kwarg (base self) = Some v)
    ∧ (∀ x, is_Some (q !! x) →
            x = lookup_url_kwarg (base self) ∨ x ∈ entries.*2).
Proof.
  intros Hitems Hpk Hv Hres.
  destruct (get_url_resolved self obj view_name request format entries v
              Hitems Hpk Hv Hres) as (D & Hurl & Hparents & Hlookup & _).
  destruct Hitems as [Hd Hnd].
  assert (Hin : ∀ k, k ∈ entries.*1 → is_Some (D !! k)).
  { intros k Hk. destruct (assoc_is_Some entries k Hk) as [p Hp].
    apply assoc_elem_of_pair in Hp.
    destruct (resolves_elem_of obj entries k p Hres Hp) as [w Hw].
    rewrite (Hparents k p w Hp Hw). eauto. }
  assert (Hkeys : has_keys D (lookup_url_kwarg (base self) :: entries.*1) = true).
  { unfold has_keys. apply forallb_forall. intros k Hk.
    assert (HD : is_Some (D !! k)); [|destruct HD as [w ->]; reflexivity].
    apply list_elem_of_In, elem_of_cons in Hk as [->|Hk]; [|auto].
    destruct (decide (lookup_url_kwarg (base self) ∈ entries.*1)); [auto|].
    rewrite Hlookup by assumption. eauto. }
  destruct (get_object_spec self view_name view_args D entries Hd Hkeys)
    as (q & Hrun & Hkeep & Hset).
  exists D, q. split; [exact Hurl|]. split; [exact Hrun|]. split.
  - intros k p w Hkp Hw.
    assert (Hk : k ∈ entries.*1).
    { apply list_elem_of_fmap. exists (k, p). split; [reflexivity | exact Hkp]. }
    destruct (Hset p k Hk (assoc_NoDup _ _ _ Hnd Hkp)) as (k' & _ & Hk'p & Hq).
    rewrite Hq. apply (Hparents k' p w); [|exact Hw].
    apply assoc_elem_of_pair, Hk'p.
  - split.
    + intros Hkey Hpath.
      rewrite Hkeep, (Hlookup Hkey); [apply lookup_singleton_eq|].
      intros k _ Hk. apply Hpath. apply list_elem_of_fmap.
      exists (k, lookup_url_kwarg (base self)).
      split; [reflexivity | apply assoc_elem_of_pair, Hk].
    + intros x Hx.
      destruct (decide (Exists (fun k => assoc k entries = Some x) (entries.*1)))
        as [Hex|Hnex].
      * right. apply Exists_exists in Hex as (k & _ & Hk).
        apply list_elem_of_fmap. exists (k, x).
        split; [reflexivity | apply assoc_elem_of_pair, Hk].
      * left. rewrite Hkeep in Hx.
        -- destruct (decide (lookup_url_kwarg (base self) = x)) as [|Hne];
             [congruence|].
           rewrite lookup_singleton_ne in Hx by exact Hne.
           destruct Hx; discriminate.
        -- intros k Hk Hkx. apply Hnex. apply Exists_exists. eauto.
Qed.

(** *** to_internal_value *)

Lemma to_internal_value_converted (self : Field Base) (data found : value) :
  base_to_internal_value self data = Ok found →
  to_internal_value self data = invoke (CallBaseToInternalValue data) (Ok found).
Proof. intros H. unfold to_internal_value, try_except. cbn. rewrite H. reflexivity. Qed.

Lemma to_internal_value_other_error (self : Field Base) (data : value) (e : exn) :
  base_to_internal_value self data = Raise e →
  (∀ detail, e ≠ ValidationError detail) →
  to_internal_value self data = invoke (CallBaseToInternalValue data) (Raise e).
Proof.
  intros H Hne. unfold to_internal_value, try_except. cbn. rewrite H.
  destruct e; try reflexivity. destruct (Hne detail). reflexivity.
Qed.

Lemma to_internal_value_no_detail (self : Field Base) (data : value) :
  base_to_internal_value self data = Raise (ValidationError []) →
  to_internal_value self data =
    IO [CallBaseToInternalValue data] (Raise IndexError).
Proof. intros H. unfold to_internal_value, try_except. cbn. rewrite H. reflexivity. Qed.

Lemma to_internal_value_reraise (self : Field Base) (data : value)
    (first : ErrorDetail) (others : list ErrorDetail) :
  base_to_internal_value self data = Raise (ValidationError (first :: others)) →
  code first ≠ "no_match" →
  to_internal_value self data =
    IO [CallBaseToInternalValue data] (Raise (ValidationError (first :: others))).
Proof.
  intros H Hcode. unfold to_internal_value, try_except. cbn. rewrite H.
  cbn. destruct (String.eqb_spec (code first) "no_match") as [Heq|_];
    [contradiction | reflexivity].
Qed.

Lemma to_internal_value_fallback (self : Field Base) (data : value)
    (first : ErrorDetail) (others : list ErrorDetail) :
  base_to_internal_value self data = Raise (ValidationError (first :: others)) →
  code first = "no_match" →
  to_internal_value self data =
    match outcome (fallback_query self data) with
    | Ok found =>
        IO (CallBaseToInternalValue data :: calls (fallback_query self data))
          (Ok found)
    | Raise e =>
        if is_lookup_failure e
        then IO (CallBaseToInternalValue data ::
                 calls (fallback_query self data) ++ [CallFail "does_not_exist"])
               (_ ← fail self "does_not_exist"; Ok VNone)
        else IO (CallBaseToInternalValue data :: calls (fallback_query self data))
               (Raise e)
    end.
Proof.
  intros H Hcode. unfold to_internal_value, try_except at 1. cbn. rewrite H.
  cbn. rewrite Hcode. cbn.
  change (queryset_lookup self {[ lookup_field (base self) := data ]} true)
    with (fallback_query self data).
  unfold try_except.
  destruct (outcome (fallback_query self data)) as [found|e] eqn:Hq; cbn.
  - rewrite Hq. reflexivity.
  - destruct (is_lookup_failure e); cbn.
    + destruct (fail self "does_not_exist"); cbn; rewrite ?app_nil_r; reflexivity.
    + rewrite Hq. reflexivity.
Qed.

(** C4.  When the base conversion raises a [ValidationError] with a
    first detail: if the code of that detail is not [no_match], the same
    error is raised again and nothing else is called; if it is
    [no_match], the fallback query [get_queryset().get] with the keyword
    [lookup_field = data] runs, its result is returned when it finds an
    object, and when it raises [ObjectDoesNotExist], [ObjectValueError]
    or [ObjectTypeError] the field calls [fail('does_not_exist')] and
    ends with the validation failure that call raises. *)
Theorem to_internal_value_validation_error (self : Field Base) (data : value)
    (first : ErrorDetail) (others : list ErrorDetail) :
  base_to_internal_value self data = Raise (ValidationError (first :: others)) →
  (code first ≠ "no_match" →
   to_internal_value self data =
     IO [CallBaseToInternalValue data] (Raise (ValidationError (first :: others))))
  ∧ (code first = "no_match" →
     (∀ found, outcome (fallback_query self data) = Ok found →
        to_internal_value self data =
          IO (CallBaseToInternalValue data :: calls (fallback_query self data))
            (Ok found))
     ∧ (∀ e, outcome (fallback_query self data) = Raise e →
          e = ObjectDoesNotExist ∨ e = ObjectValueError ∨ e = ObjectTypeError →
          calls (to_internal_value self data) =
            CallBaseToInternalValue data ::
            calls (fallback_query self data) ++ [CallFail "does_not_exist"]
          ∧ outcome (to_internal_value self data) =
              (_ ← fail self "does_not_exist"; Ok VNone)
          ∧ ∀ failure, fail self "does_not_exist" = Raise failure →
              outcome (to_internal_value self data) = Raise failure)).
Proof.
  intros H. split; [apply to_internal_value_reraise, H|].
  intros Hcode. rewrite (to_internal_value_fallback _ _ _ _ H Hcode). split.
  - intros found Hq. rewrite Hq. reflexivity.
  - intros e Hq He. rewrite Hq.
    assert (is_lookup_failure e = true) as -> by (destruct He as [->|[->| ->]]; reflexivity).
    split; [reflexivity|]. split; [reflexivity|].
    intros failure Hfail. cbn. rewrite Hfail. reflexivity.
Qed.

(** *** NestedHyperlinkedIdentityField *)

(** C6.  The constructor of the identity field, called with a
    [view_name] and keywords (which by the signature never hold
    [view_name]): when [view_name] is [None] it fails an assertion and
    calls nothing; otherwise it is the constructor of
    [NestedHyperlinkedRelatedField] called with no positional argument
    and with keywords that bind [read_only] to [True], [source] to ['*']
    and [view_name] to the given one, and agree with the given keywords
    on every other name.  The class defines no other method:
    [get_url], [get_object], [use_pk_only_optimization] and
    [to_internal_value] are those of [NestedHyperlinkedRelatedField]. *)
Theorem identity_init_delegates (view_name : value) (kwargs : gmap string value) :
  kwargs !! "view_name" = None →
  (if is_not_none view_name
   then ∃ passed : gmap string value,
          identity_init view_name kwargs = init [] passed
          ∧ passed !! "read_only" = Some (VBool true)
          ∧ passed !! "source" = Some (VStr "*")
          ∧ passed !! "view_name" = Some view_name
          ∧ (∀ k, k ≠ "read_only" → k ≠ "source" → k ≠ "view_name" →
                  passed !! k = kwargs !! k)
   else ∃ msg, identity_init view_name kwargs = IO [] (Raise (AssertionError msg)))
  ∧ m_get_url NestedHyperlinkedIdentityField = get_url
  ∧ m_get_object NestedHyperlinkedIdentityField = get_object
  ∧ m_use_pk_only_optimization NestedHyperlinkedIdentityField =
      use_pk_only_optimization
  ∧ m_to_internal_value NestedHyperlinkedIdentityField = to_internal_value.
Proof.
  intros Hfree. split; [|repeat split].
  unfold identity_init. destruct (is_not_none view_name); [|eauto].
  exists (<["view_name" := view_name]>
            (<["source" := VStr "*"]> (<["read_only" := VBool true]> kwargs))).
  split; [|split; [|split; [|split]]].
  - unfold keyword_call.
    rewrite !lookup_insert_ne, Hfree by discriminate.
    apply bind_pure_ok.
  - rewrite !lookup_insert_ne by discriminate. apply lookup_insert_eq.
  - rewrite lookup_insert_ne by discriminate. apply lookup_insert_eq.
  - apply lookup_insert_eq.
  - intros k H1 H2 H3. rewrite !lookup_insert_ne by congruence. reflexivity.
Qed.

End Properties.

(** *** What is caught *)


(** ** The definitions at work *)

(** Closes a decidable closed goal by evaluation. *)
Ltac by_evaluation := apply (bool_decide_unpack _); vm_compute; exact I.

Lemma comment_field_items :
  str_items (parent_lookup_kwargs comment_field) comment_lookups.
Proof. split; [reflexivity | by_evaluation]. Qed.

Lemma clash_field_items :
  str_items (parent_lookup_kwargs clash_field) [("pk", "post__pk")].
Proof. split; [reflexivity | by_evaluation]. Qed.

Lemma path_clash_field_items :
  str_items (parent_lookup_kwargs path_clash_field) [("post_pk", "pk")].
Proof. split; [reflexivity | by_evaluation]. Qed.

(** The URL of the comment is reversed from its own key and the keys of
    its post and blog. *)
Example get_url_comment :
  get_url (fw := stub) comment_field comment "comment-detail" tt None =
  IO [CallReverse (fw := stub) "comment-detail"
        (<["blog_pk" := VInt 1]> (<["post_pk" := VInt 3]> {["pk" := VInt 7]}))
        tt None]
     (Ok (VStr "/comment-detail/")).
Proof. vm_compute. reflexivity. Qed.

(** With the lookup URL keyword reused as a parent URL keyword, the key
    of the post takes the place of the key of the comment. *)
Example get_url_clash :
  get_url (fw := stub) clash_field comment "comment-detail" tt None =
  IO [CallReverse (fw := stub) "comment-detail" {["pk" := VInt 3]} tt None]
     (Ok (VStr "/comment-detail/")).
Proof. vm_compute. reflexivity. Qed.

Example get_object_clash :
  get_object (fw := stub) clash_field "comment-detail" [] {["pk" := VInt 3]} =
  IO [CallGetQueryset;
      CallQuerysetGet (fw := stub) tt
        (<["post__pk" := VInt 3]> {["pk" := VInt 3]})]
     (Ok (VInt 1)).
Proof. vm_compute. reflexivity. Qed.

(** With a parent path equal to the lookup URL keyword, the parent's URL
    argument takes the place of the object's. *)
Example get_object_path_clash :
  get_object (fw := stub) path_clash_field "comment-detail" []
    (<["post_pk" := VInt 3]> {["pk" := VInt 7]}) =
  IO [CallGetQueryset; CallQuerysetGet (fw := stub) tt {["pk" := VInt 3]}]
     (Ok (VInt 1)).
Proof. vm_compute. reflexivity. Qed.


Example get_url_broken :
  get_url (fw := stub) comment_field broken_comment "comment-detail" tt None =
  IO [] (Raise (OtherError "OperationalError")).
Proof. reflexivity. Qed.

(** The URL of the comment [7] of the post [3] of the blog [1]: the
    dictionary passed to [reverse] holds the three keys. *)
Lemma get_url_reverses_comment :
  ∃ D : gmap string value,
    get_url (fw := stub) comment_field comment "comment-detail" tt None =
      IO [CallReverse (fw := stub) "comment-detail" D tt None]
         (Ok (VStr "/comment-detail/"))
    ∧ D !! "pk" = Some (VInt 7)
    ∧ D !! "post_pk" = Some (VInt 3)
    ∧ D !! "blog_pk" = Some (VInt 1).
Proof.
  destruct (get_url_reverses (fw := stub) comment_field comment "comment-detail"
              tt None comment_lookups (VInt 7))
    as (D & Hrun & Hparents & Hlookup & _).
  - split; [reflexivity | by_evaluation].
  - reflexivity.
  - reflexivity.
  - reflexivity.
  - exists D. split; [exact Hrun|]. split; [apply Hlookup; by_evaluation|]. split.
    + apply (Hparents "post_pk" "post__pk"); [by_evaluation | reflexivity].
    + apply (Hparents "blog_pk" "post__blog__pk"); [by_evaluation | reflexivity].
Defined.

(** C1 as stated fails when [lookup_url_kwarg] is a parent URL keyword:
    on the comment [7] of the post [3], the field with
    [parent_lookup_kwargs = {'pk': 'post__pk'}] passes [{'pk': 3}] to
    [reverse], so [lookup_url_kwarg] is not mapped to
    [getattr(obj, lookup_field) = 7]. *)
Lemma get_url_keyword_clash :
  str_items (parent_lookup_kwargs clash_field) [("pk", "post__pk")]
  ∧ getattr comment "pk" = Ok (VInt 7)
  ∧ getattr comment (lookup_field (Framework := stub) (base clash_field)) = Ok (VInt 7)
  ∧ resolves comment [("pk", "post__pk")] = true
  ∧ ¬ ∃ D : gmap string value,
        get_url (fw := stub) clash_field comment "comment-detail" tt None =
          invoke (CallReverse (fw := stub) "comment-detail" D tt None)
            (reverse (Framework := stub) clash_field "comment-detail" D tt None)
        ∧ D !! lookup_url_kwarg (Framework := stub) (base clash_field) = Some (VInt 7)
        ∧ ∀ k p w, (k, p) ∈ [("pk", "post__pk")] →
                   chain_value comment p = Ok w → D !! k = Some w.
Proof.
  split; [exact clash_field_items|]. repeat (split; [reflexivity|]).
  intros (D & Hrun & Hlookup & _).
  rewrite get_url_clash in Hrun. unfold invoke in Hrun.
  injection Hrun as HD. subst D.
  vm_compute in Hlookup. discriminate Hlookup.
Qed.

(** The query built from the URL arguments of the comment. *)
Lemma get_object_filters_comment :
  ∃ q : gmap string value,
    get_object (fw := stub) comment_field "comment-detail" [] comment_view_kwargs =
      IO [CallGetQueryset; CallQuerysetGet (fw := stub) tt q] (Ok (VInt 1))
    ∧ q !! "pk" = Some (VInt 7)
    ∧ q !! "post__pk" = Some (VInt 3)
    ∧ q !! "post__blog__pk" = Some (VInt 1).
Proof.
  destruct (get_object_filters (fw := stub) comment_field "comment-detail" []
              comment_view_kwargs comment_lookups)
    as (q & Hrun & Hlookup & _ & Hparents & _).
  - split; [reflexivity | by_evaluation].
  - reflexivity.
  - exists q. split; [exact Hrun|]. split; [apply Hlookup; by_evaluation|]. split.
    + apply (Hparents ltac:(by_evaluation) "post_pk" "post__pk"). by_evaluation.
    + apply (Hparents ltac:(by_evaluation) "blog_pk" "post__blog__pk"). by_evaluation.
Defined.

(** C2 as stated fails when a dotted path is the lookup URL keyword: with
    [parent_lookup_kwargs = {'post_pk': 'pk'}] and the URL arguments
    [{'pk': 7, 'post_pk': 3}], the query is [get(pk=3)], so
    [lookup_url_kwarg] is not mapped to [view_kwargs[lookup_url_kwarg]]. *)
Lemma get_object_path_clash_refutes :
  str_items (parent_lookup_kwargs path_clash_field) [("post_pk", "pk")]
  ∧ has_keys (<["post_pk" := VInt 3]> {["pk" := VInt 7]}) ["pk"; "post_pk"] = true
  ∧ ¬ ∃ q : gmap string value,
        get_object (fw := stub) path_clash_field "comment-detail" []
          (<["post_pk" := VInt 3]> {["pk" := VInt 7]}) =
          IO [CallGetQueryset; CallQuerysetGet (fw := stub) tt q]
             (queryset_get (Framework := stub) tt q)
        ∧ q !! lookup_url_kwarg (Framework := stub) (base path_clash_field) =
            (<["post_pk" := VInt 3]> {["pk" := VInt 7]} : gmap string value)
              !! lookup_url_kwarg (Framework := stub) (base path_clash_field)
        ∧ ∀ k p, (k, p) ∈ [("post_pk", "pk")] →
                 q !! p =
                 (<["post_pk" := VInt 3]> {["pk" := VInt 7]} : gmap string value) !! k.
Proof.
  split; [exact path_clash_field_items|]. split; [reflexivity|].
  intros (q & Hrun & Hlookup & _).
  rewrite get_object_path_clash in Hrun.
  injection Hrun as Hq. subst q.
  vm_compute in Hlookup. discriminate Hlookup.
Qed.

(** From the comment to its URL arguments and back to the query, which
    filters on the keys of the comment, of its post and of its blog, and
    on nothing else. *)
Lemma round_trip_comment :
  ∃ D q : gmap string value,
    get_url (fw := stub) comment_field comment "comment-detail" tt None =
      IO [CallReverse (fw := stub) "comment-detail" D tt None]
         (Ok (VStr "/comment-detail/"))
    ∧ get_object (fw := stub) comment_field "comment-detail" [] D =
        IO [CallGetQueryset; CallQuerysetGet (fw := stub) tt q] (Ok (VInt 1))
    ∧ q !! "pk" = Some (VInt 7)
    ∧ q !! "post__pk" = Some (VInt 3)
    ∧ q !! "post__blog__pk" = Some (VInt 1)
    ∧ (∀ x, is_Some (q !! x) → x ∈ ["pk"; "post__pk"; "post__blog__pk"]).
Proof.
  destruct (get_url_get_object_round_trip (fw := stub) comment_field comment
              "comment-detail" tt None [] comment_lookups (VInt 7))
    as (D & q & Hurl & Hobj & Hparents & Hlookup & Honly).
  - split; [reflexivity | by_evaluation].
  - reflexivity.
  - reflexivity.
  - reflexivity.
  - exists D, q. split; [exact Hurl|]. split; [exact Hobj|].
    split; [apply Hlookup; by_evaluation|]. split; [|split].
    + apply (Hparents "post_pk" "post__pk"); [by_evaluation | reflexivity].
    + apply (Hparents "blog_pk" "post__blog__pk"); [by_evaluation | reflexivity].
    + intros x Hx. destruct (Honly x Hx) as [->|Hpath].
      * apply elem_of_cons. left. reflexivity.
      * apply elem_of_cons. right. exact Hpath.
Defined.

(** C3 as stated fails when [lookup_url_kwarg] is a parent URL keyword:
    the field with [parent_lookup_kwargs = {'pk': 'post__pk'}] passes
    [{'pk': 3}] to [reverse] for the comment [7], and from these URL
    arguments [get_object] queries [get(pk=3, post__pk=3)]: the
    [lookup_url_kwarg] filter is the key of the post, not
    [getattr(obj, lookup_field) = 7]. *)
Lemma round_trip_keyword_clash :
  str_items (parent_lookup_kwargs clash_field) [("pk", "post__pk")]
  ∧ getattr comment "pk" = Ok (VInt 7)
  ∧ getattr comment (lookup_field (Framework := stub) (base clash_field)) = Ok (VInt 7)
  ∧ resolves comment [("pk", "post__pk")] = true
  ∧ ¬ ∃ D q : gmap string value,
        get_url (fw := stub) clash_field comment "comment-detail" tt None =
          invoke (CallReverse (fw := stub) "comment-detail" D tt None)
            (reverse (Framework := stub) clash_field "comment-detail" D tt None)
        ∧ get_object (fw := stub) clash_field "comment-detail" [] D =
            IO [CallGetQueryset; CallQuerysetGet (fw := stub) tt q]
               (queryset_get (Framework := stub) tt q)
        ∧ (∀ k p w, (k, p) ∈ [("pk", "post__pk")] →
                    chain_value comment p = Ok w → q !! p = Some w)
        ∧ q !! lookup_url_kwarg (Framework := stub) (base clash_field) =
            Some (VInt 7).
Proof.
  split; [exact clash_field_items|]. repeat (split; [reflexivity|]).
  intros (D & q & Hurl & Hobj & _ & Hlookup).
  rewrite get_url_clash in Hurl. unfold invoke in Hurl.
  injection Hurl as HD. subst D.
  rewrite get_object_clash in Hobj. injection Hobj as Hq. subst q.
  vm_compute in Hlookup. discriminate Hlookup.
Qed.

(** A bare key as input: the base conversion finds no URL match; the
    fallback query finds the object, or, with a queryset that finds
    nothing, the field fails with [does_not_exist]. *)
Lemma to_internal_value_bare_key :
  to_internal_value (fw := stub) comment_field (VInt 7) =
    IO [CallBaseToInternalValue (VInt 7); CallGetQueryset;
        CallQuerysetGet (fw := stub) tt {["pk" := VInt 7]}]
       (Ok (VInt 1))
  ∧ outcome (to_internal_value (fw := missing_stub) comment_field (VInt 7)) =
      Raise (ValidationError [mkErrorDetail "Invalid." "does_not_exist"]).
Proof.
  split.
  - destruct (to_internal_value_validation_error (fw := stub) comment_field
                (VInt 7) (mkErrorDetail "Invalid." "no_match") [])
      as [_ Hfallback]; [reflexivity|].
    destruct (Hfallback eq_refl) as [Hfound _].
    exact (Hfound (VInt 1) eq_refl).
  - destruct (to_internal_value_validation_error (fw := missing_stub)
                comment_field (VInt 7) (mkErrorDetail "Invalid." "no_match") [])
      as [_ Hfallback]; [reflexivity|].
    destruct (Hfallback eq_refl) as [_ Hmissing].
    destruct (Hmissing ObjectDoesNotExist eq_refl (or_introl eq_refl))
      as (_ & _ & Hfail).
    exact (Hfail _ eq_refl).
Defined.

(** The identity field built with [view_name='comment-detail'] and no
    other keyword. *)
Lemma identity_init_comment_detail :
  ∃ passed : gmap string value,
    identity_init (fw := stub) (VStr "comment-detail") ∅ = init [] passed
    ∧ passed !! "read_only" = Some (VBool true)
    ∧ passed !! "source" = Some (VStr "*")
    ∧ passed !! "view_name" = Some (VStr "comment-detail").
Proof.
  destruct (identity_init_delegates (fw := stub) (VStr "comment-detail") ∅)
    as [(passed & Hrun & Hro & Hsrc & Hvn & _) _]; [reflexivity|].
  exists passed. repeat split; assumption.
Defined.

(** The unsaved comment has no URL. *)
Lemma get_url_unsaved_comment :
  get_url (fw := stub) comment_field unsaved_comment "comment-detail" tt None =
  IO [] (Ok VNone).
Proof.
  apply (get_url_unsaved (fw := stub) comment_field unsaved_comment
           "comment-detail" tt None VNone); reflexivity.
Defined.

(** The comment without post gets the URL of the base class. *)
Lemma get_url_not_nested_orphan :
  get_url (fw := stub) comment_field orphan_comment "comment-detail" tt None =
  IO [CallBaseGetUrl (fw := stub) orphan_comment "comment-detail" tt None]
     (Ok (VStr "/flat/")).
Proof.
  apply (get_url_not_nested (fw := stub) comment_field orphan_comment
           "comment-detail" tt None comment_lookups []
           [("blog_pk", "post__blog__pk")] "post_pk" "post__pk" (VInt 7)).
  - split; [reflexivity | by_evaluation].
  - reflexivity.
  - reflexivity.
  - reflexivity.
  - reflexivity.
  - reflexivity.
Defined.

(** C8 as stated fails on two kinds of objects.  With
    [parent_lookup_kwargs = {'post_pk': 'post__pk', 'author_pk': 'author__pk'}],
    on a comment whose [author] is [None] the path [author__pk] raises
    [AttributeError], but its [post] raises [OperationalError] first:
    [get_url] ends with that error and the base class is not called.  On
    an unsaved comment whose [post] is [None] the path [post__pk] raises
    [AttributeError], and [get_url] returns [None], again without calling
    the base class. *)
Lemma get_url_not_nested_refuted :
  (str_items (parent_lookup_kwargs authored_field) authored_lookups
   ∧ ("author_pk", "author__pk") ∈ authored_lookups
   ∧ chain_value unloadable_comment "author__pk" = Raise AttributeError
   ∧ get_url (fw := stub) authored_field unloadable_comment "comment-detail"
       tt None = IO [] (Raise (OtherError "OperationalError"))
   ∧ get_url (fw := stub) authored_field unloadable_comment "comment-detail"
       tt None ≠
     invoke (CallBaseGetUrl (fw := stub) unloadable_comment "comment-detail"
               tt None)
       (base_get_url (Framework := stub) authored_field unloadable_comment
          "comment-detail" tt None))
  ∧ (str_items (parent_lookup_kwargs comment_field) comment_lookups
     ∧ ("post_pk", "post__pk") ∈ comment_lookups
     ∧ chain_value unsaved_orphan_comment "post__pk" = Raise AttributeError
     ∧ get_url (fw := stub) comment_field unsaved_orphan_comment
         "comment-detail" tt None = IO [] (Ok VNone)
     ∧ get_url (fw := stub) comment_field unsaved_orphan_comment
         "comment-detail" tt None ≠
       invoke (CallBaseGetUrl (fw := stub) unsaved_orphan_comment
                 "comment-detail" tt None)
         (base_get_url (Framework := stub) comment_field
            unsaved_orphan_comment "comment-detail" tt None)).
Proof.
  split.
  - split; [split; [reflexivity | by_evaluation]|].
    split; [apply elem_of_cons; right; apply elem_of_cons; left; reflexivity|].
    split; [reflexivity|]. split; [reflexivity|].
    intros H. vm_compute in H. discriminate H.
  - split; [exact comment_field_items|].
    split; [apply elem_of_cons; left; reflexivity|].
    split; [reflexivity|]. split; [reflexivity|].
    intros H. vm_compute in H. discriminate H.
Qed.






(** ** Further properties of the methods *)

Section Further.
Context `{fw : Framework}.

(** *** get_url *)

(** The loop of [get_url], whatever [parent_lookup_kwargs] holds: it ends
    with an exception and no call, or with the single call of [reverse]
    on a dictionary that still has the keys it started with, or with the
    single call of the base [get_url]. *)
Lemma get_url_parents_shape (self : Field Base) (obj : value) (view_name : string)
    (request : Request) (format : option string) :
  ∀ (keys : list string) (kwargs : gmap string value),
    (∃ e, get_url_parents self obj view_name request format keys kwargs =
            IO [] (Raise e))
    ∨ (∃ D : gmap string value,
         (∀ k, is_Some (kwargs !! k) → is_Some (D !! k))
         ∧ get_url_parents self obj view_name request format keys kwargs =
             invoke (CallReverse view_name D request format)
               (reverse self view_name D request format))
    ∨ get_url_parents self obj view_name request format keys kwargs =
        invoke (CallBaseGetUrl obj view_name request format)
          (base_get_url self obj view_name request format).
Proof.
  intros keys. induction keys as [|k keys IH]; intros kwargs.
  - right. left. exists kwargs. split; [auto | reflexivity].
  - cbn [get_url_parents].
    destruct (py_getitem (parent_lookup_kwargs self) k) as [path|e];
      [|left; exists e; reflexivity].
    destruct (py_split path "__") as [lookups|e]; [|left; exists e; reflexivity].
    destruct (reduce py_getattr (obj :: (VStr <$> lookups))) as [w|e].
    + destruct (IH (<[k := w]> kwargs)) as [Hraise|[(D & Hkeys & Hrun)|Hbase]];
        [left; exact Hraise | | right; right; exact Hbase].
      right. left. exists D. split; [|exact Hrun].
      intros k' Hk'. apply Hkeys.
      destruct (decide (k = k')) as [->|Hne].
      * rewrite lookup_insert_eq. eauto.
      * rewrite lookup_insert_ne by exact Hne. exact Hk'.
    + destruct e; try (left; eexists; reflexivity).
      right. right. reflexivity.
Qed.

(** X1.  Whatever the field and the object, [get_url] ends in one of four
    ways: it returns [None] without calling the framework, for an unsaved
    object; it raises without calling the framework; it calls [reverse]
    once, with a dictionary that holds [lookup_url_kwarg], and ends as
    that call ends; or it calls the base [get_url] once, with the same
    arguments, and ends as that call ends.  It never makes two calls and
    never calls anything else. *)
Theorem get_url_call_shape (self : Field Base) (obj : value) (view_name : string)
    (request : Request) (format : option string) :
  (is_unsaved obj = Ok true
   ∧ get_url self obj view_name request format = IO [] (Ok VNone))
  ∨ (∃ e, get_url self obj view_name request format = IO [] (Raise e))
  ∨ (∃ D : gmap string value,
       is_Some (D !! lookup_url_kwarg (base self))
       ∧ get_url self obj view_name request format =
           invoke (CallReverse view_name D request format)
             (reverse self view_name D request format))
  ∨ get_url self obj view_name request format =
      invoke (CallBaseGetUrl obj view_name request format)
        (base_get_url self obj view_name request format).
Proof.
  unfold get_url.
  destruct (is_unsaved obj) as [[|]|e]; [left; split; reflexivity| |right; left; eauto].
  rewrite bind_pure_ok.
  destruct (getattr obj (lookup_field (base self))) as [v|e];
    [|right; left; exists e; reflexivity].
  rewrite bind_pure_ok.
  destruct (py_keys (parent_lookup_kwargs self)) as [keys|e];
    [|right; left; exists e; reflexivity].
  rewrite bind_pure_ok.
  destruct (get_url_parents_shape self obj view_name request format keys
              {[ lookup_url_kwarg (base self) := v ]})
    as [Hraise|[(D & Hkeys & Hrun)|Hbase]]; [auto | | auto].
  right. right. left. exists D. split; [|exact Hrun].
  apply Hkeys. rewrite lookup_singleton_eq. eauto.
Qed.

(** X2.  An exception raised when reading [lookup_field] on a saved
    object ends [get_url] and nothing is called: also an
    [AttributeError], which at this place does not lead to the base
    [get_url]. *)
Theorem get_url_lookup_field_error (self : Field Base) (obj : value)
    (view_name : string) (request : Request) (format : option string) (e : exn) :
  is_unsaved obj = Ok false →
  getattr obj (lookup_field (base self)) = Raise e →
  get_url self obj view_name request format = IO [] (Raise e).
Proof.
  intros Hsaved He. unfold get_url. rewrite Hsaved, bind_pure_ok, He. reflexivity.
Qed.

(** X3.  When the first dotted path that does not resolve raises
    something other than [AttributeError], [get_url] ends with that
    exception and has called neither the base [get_url] nor [reverse];
    the entries after it are not looked at. *)
Theorem get_url_parent_error (self : Field Base) (obj : value) (view_name : string)
    (request : Request) (format : option string)
    (entries done rest : list (string * string)) (k p : string) (v : value)
    (e : exn) :
  str_items (parent_lookup_kwargs self) entries →
  is_unsaved obj = Ok false →
  getattr obj (lookup_field (base self)) = Ok v →
  entries = (done ++ (k, p) :: rest)%list →
  resolves obj done = true →
  chain_value obj p = Raise e →
  e ≠ AttributeError →
  get_url self obj view_name request format = IO [] (Raise e).
Proof.
  intros Hitems Hsaved Hv Hsplit Hres Hp Hne.
  rewrite (get_url_first_failure _ _ _ _ _ _ _ _ _ _ _ _ Hitems Hsaved Hv Hsplit Hres Hp).
  destruct e; try reflexivity. contradiction.
Qed.

(** X4.  A [parent_lookup_kwargs] that is [None], a boolean, an integer
    or a string (the constructor keeps whatever it is given) makes
    [get_url] on a saved object, and [get_object], raise
    [AttributeError] without calling the framework: the error comes from
    [.keys()], outside the [try], and is not taken for a missing
    parent. *)
Theorem lookups_not_a_dict (self : Field Base) (obj : value) (view_name : string)
    (request : Request) (format : option string) (view_args : list value)
    (view_kwargs : gmap string value) (v : value) :
  is_scalar (parent_lookup_kwargs self) = true →
  is_unsaved obj = Ok false →
  getattr obj (lookup_field (base self)) = Ok v →
  is_Some (view_kwargs !! lookup_url_kwarg (base self)) →
  get_url self obj view_name request format = IO [] (Raise AttributeError)
  ∧ get_object self view_name view_args view_kwargs = IO [] (Raise AttributeError).
Proof.
  intros Hscalar Hsaved Hv [val Hval]. unfold get_url, get_object, kw_getitem.
  rewrite Hsaved, Hv, Hval, !bind_pure_ok.
  destruct (parent_lookup_kwargs self); try discriminate Hscalar; split; reflexivity.
Qed.

(** X5.  When the first entry of [parent_lookup_kwargs] has a value that
    is not a string ([None], a boolean, an integer, a dictionary),
    [get_url] on a saved object raises [AttributeError] without calling
    the framework: the error comes from [.split], outside the [try], so
    the base [get_url] is not used. *)
Theorem get_url_path_not_a_string (self : Field Base) (obj : value)
    (view_name : string) (request : Request) (format : option string)
    (k : string) (path : value) (items : list (string * value)) (v : value) :
  parent_lookup_kwargs self = VDict ((k, path) :: items) →
  is_not_a_path path = true →
  is_unsaved obj = Ok false →
  getattr obj (lookup_field (base self)) = Ok v →
  get_url self obj view_name request format = IO [] (Raise AttributeError).
Proof.
  intros Hd Hpath Hsaved Hv. unfold get_url.
  rewrite Hsaved, Hv, Hd, !bind_pure_ok. cbn [py_keys fmap list_fmap fst].
  rewrite bind_pure_ok. cbn [get_url_parents]. rewrite Hd.
  cbn [py_getitem assoc]. rewrite String.eqb_refl.
  destruct path; try discriminate Hpath; reflexivity.
Qed.

Lemma resolves_Permutation (obj : value) (entries entries' : list (string * string)) :
  entries ≡ₚ entries' → resolves obj entries = true → resolves obj entries' = true.
Proof.
  unfold resolves. rewrite !forallb_forall. intros Hperm H kp Hin.
  apply H. apply list_elem_of_In. rewrite Hperm. apply list_elem_of_In, Hin.
Qed.

(** X6.  The dictionary passed to [reverse] does not depend on the order
    of the entries of [parent_lookup_kwargs]: two fields with the same
    base state whose dictionaries hold the same items, in any order, pass
    the same dictionary for an object on which every path resolves. *)
Theorem get_url_entry_order (self self' : Field Base) (obj : value)
    (view_name : string) (request : Request) (format : option string)
    (entries entries' : list (string * string)) (v : value) :
  base self = base self' →
  str_items (parent_lookup_kwargs self) entries →
  str_items (parent_lookup_kwargs self') entries' →
  entries ≡ₚ entries' →
  is_unsaved obj = Ok false →
  getattr obj (lookup_field (base self)) = Ok v →
  resolves obj entries = true →
  ∃ D : gmap string value,
    get_url self obj view_name request format =
      invoke (CallReverse view_name D request format)
        (reverse self view_name D request format)
    ∧ get_url self' obj view_name request format =
        invoke (CallReverse view_name D request format)
          (reverse self' view_name D request format).
Proof.
  intros Hbase Hitems Hitems' Hperm Hsaved Hv Hres.
  pose proof (resolves_Permutation _ _ _ Hperm Hres) as Hres'.
  destruct (get_url_resolved self obj view_name request format entries v
              Hitems Hsaved Hv Hres) as (D & Hrun & Hin & Hlookup & Hdom).
  rewrite Hbase in Hv.
  destruct (get_url_resolved self' obj view_name request format entries' v
              Hitems' Hsaved Hv Hres') as (D' & Hrun' & Hin' & Hlookup' & Hdom').
  rewrite <- Hbase in Hlookup', Hdom'.
  assert (D' = D) as ->; [|eauto].
  apply map_eq. intros x.
  destruct (decide (x ∈ entries.*1)) as [Hx|Hx].
  - apply list_elem_of_fmap in Hx as ([k p] & -> & Hkp).
    destruct (resolves_elem_of obj entries k p Hres Hkp) as [w Hw].
    cbn. rewrite (Hin k p w Hkp Hw). apply (Hin' k p w); [|exact Hw].
    rewrite <- Hperm. exact Hkp.
  - assert (Hx' : x ∉ entries'.*1) by (rewrite <- Hperm; exact Hx).
    destruct (decide (x = lookup_url_kwarg (base self))) as [->|Hne].
    + rewrite (Hlookup Hx), (Hlookup' Hx'). reflexivity.
    + destruct (D !! x) eqn:HD.
      { destruct (Hdom x) as [|]; [eauto | contradiction | contradiction]. }
      destruct (D' !! x) eqn:HD'; [|reflexivity].
      destruct (Hdom' x) as [|]; [eauto | contradiction | contradiction].
Qed.

(** X7.  A field built without [parent_lookup_kwargs] uses the class
    attribute: for a saved object with a parent, [get_url] reverses the
    view with [lookup_url_kwarg] bound to [getattr(obj, lookup_field)]
    and, stored after it, [parent_pk] bound to [obj.parent.pk]. *)
Theorem get_url_default_lookups (args : list value) (kwargs : gmap string value)
    (self : Field Base) (obj parent : value) (view_name : string)
    (request : Request) (format : option string) (v w : value) :
  kwargs !! "parent_lookup_kwargs" = None →
  outcome (init args kwargs) = Ok self →
  is_unsaved obj = Ok false →
  getattr obj (lookup_field (base self)) = Ok v →
  getattr obj "parent" = Ok parent →
  getattr parent "pk" = Ok w →
  get_url self obj view_name request format =
    invoke
      (CallReverse view_name
         (<["parent_pk" := w]> {[ lookup_url_kwarg (base self) := v ]})
         request format)
      (reverse self view_name
         (<["parent_pk" := w]> {[ lookup_url_kwarg (base self) := v ]})
         request format).
Proof.
  intros Habsent Hinit Hsaved Hv Hparent Hpk.
  assert (Hd : parent_lookup_kwargs self = str_dict [("parent_pk", "parent__pk")]).
  { unfold init in Hinit. rewrite Habsent in Hinit. cbn in Hinit.
    destruct (base_init args (delete "parent_lookup_kwargs" kwargs)) as [b|e];
      cbn in Hinit; [|discriminate Hinit].
    injection Hinit as <-. reflexivity. }
  rewrite (get_url_running _ _ _ _ _ _ _ Hd Hsaved Hv).
  apply (get_url_parents_ok _ _ _ _ _ _ "parent_pk" "parent__pk" w [] _ Hd);
    [reflexivity|].
  unfold chain_value. change (split "__" "parent__pk") with ["parent"; "pk"].
  cbn [fold_getattr]. rewrite Hparent. cbn. rewrite Hpk. reflexivity.
Qed.

(** *** get_object *)

Lemma has_keys_app (d : gmap string value) (keys keys' : list string) :
  has_keys d (keys ++ keys') = has_keys d keys && has_keys d keys'.
Proof. apply forallb_app. Qed.

(** The loop of [get_object] passes over keys that are present. *)
Lemma get_object_parents_app (self : Field Base)
    (view_kwargs : gmap string value) (entries : list (string * string))
    (rest : list string) :
  parent_lookup_kwargs self = str_dict entries →
  ∀ (done : list string) (q0 : gmap string value) (strs : bool),
    (∀ k, k ∈ done → is_Some (assoc k entries)) →
    has_keys view_kwargs done = true →
    ∃ q : gmap string value,
      get_object_parents self view_kwargs (done ++ rest) q0 strs =
      get_object_parents self view_kwargs rest q strs.
Proof.
  intros Hd done. induction done as [|k0 done IH]; intros q0 strs Hin Hkeys.
  - exists q0. reflexivity.
  - destruct (Hin k0) as [p0 Hp0]; [apply elem_of_cons; auto|].
    cbn in Hkeys. apply andb_prop in Hkeys as [Hk0 Hkeys].
    destruct (view_kwargs !! k0) as [val0|] eqn:Hval0; [|discriminate Hk0].
    destruct (IH (<[p0 := val0]> q0) strs) as [q Hq];
      [intros k Hk; apply Hin, elem_of_cons; auto | exact Hkeys |].
    exists q. cbn [app get_object_parents]. unfold kw_getitem. rewrite Hval0.
    rewrite Hd, (py_getitem_str_dict _ _ _ Hp0). exact Hq.
Qed.

(** X8.  [get_object] reads [view_kwargs[lookup_url_kwarg]] and then the
    URL arguments of the parents in the order of [parent_lookup_kwargs];
    the first one that is missing raises [KeyError] with its name, and
    the queryset is not touched. *)
Theorem get_object_missing_argument (self : Field Base) (view_name : string)
    (view_args : list value) (view_kwargs : gmap string value)
    (entries : list (string * string)) (present rest : list string) (k : string) :
  str_items (parent_lookup_kwargs self) entries →
  lookup_url_kwarg (base self) :: entries.*1 = (present ++ k :: rest)%list →
  has_keys view_kwargs present = true →
  view_kwargs !! k = None →
  get_object self view_name view_args view_kwargs = IO [] (Raise (KeyError k)).
Proof.
  intros [Hd _] Hsplit Hpresent Hmissing. unfold get_object.
  destruct present as [|k0 present]; cbn in Hsplit.
  - injection Hsplit as <- _. unfold kw_getitem. rewrite Hmissing. reflexivity.
  - injection Hsplit as <- Hkeys. cbn in Hpresent.
    apply andb_prop in Hpresent as [Hluk Hpresent].
    unfold kw_getitem at 1.
    destruct (view_kwargs !! lookup_url_kwarg (base self)) as [val|];
      [|discriminate Hluk].
    rewrite bind_pure_ok, Hd, py_keys_str_dict, bind_pure_ok, Hkeys.
    destruct (get_object_parents_app self view_kwargs entries (k :: rest) Hd present
                {[ lookup_url_kwarg (base self) := val ]} true) as [q Hq].
    + intros k' Hk'. apply assoc_is_Some. rewrite Hkeys.
      apply elem_of_app. left. exact Hk'.
    + exact Hpresent.
    + rewrite Hq. cbn [get_object_parents]. unfold kw_getitem.
      rewrite Hmissing. reflexivity.
Qed.

Lemma get_object_parents_ext (self : Field Base)
    (view_kwargs view_kwargs' : gmap string value) :
  ∀ (keys : list string) (q0 : gmap string value) (strs : bool),
    (∀ k, k ∈ keys → view_kwargs !! k = view_kwargs' !! k) →
    get_object_parents self view_kwargs keys q0 strs =
    get_object_parents self view_kwargs' keys q0 strs.
Proof.
  intros keys. induction keys as [|k keys IH]; intros q0 strs Hsame; [reflexivity|].
  cbn [get_object_parents]. unfold kw_getitem.
  rewrite <- (Hsame k) by (apply elem_of_cons; auto).
  destruct (view_kwargs !! k) as [val|]; [|reflexivity]. cbn.
  destruct (py_getitem (parent_lookup_kwargs self) k) as [path|e]; [|reflexivity].
  cbn. destruct (py_hash_key path) as [[key|]|e]; cbn; [| |reflexivity];
    apply IH; intros k' Hk'; apply Hsame, elem_of_cons; auto.
Qed.

(** X9.  [get_object] uses nothing of its arguments but
    [view_kwargs[lookup_url_kwarg]] and the URL arguments named by the
    keys of [parent_lookup_kwargs]: the view name, the positional URL
    arguments and every other URL argument make no difference to the
    calls it makes and to its outcome. *)
Theorem get_object_uses_only_its_keys (self : Field Base)
    (view_name view_name' : string) (view_args view_args' : list value)
    (view_kwargs view_kwargs' : gmap string value)
    (entries : list (string * string)) :
  str_items (parent_lookup_kwargs self) entries →
  (∀ k, k ∈ lookup_url_kwarg (base self) :: entries.*1 →
        view_kwargs !! k = view_kwargs' !! k) →
  get_object self view_name view_args view_kwargs =
  get_object self view_name' view_args' view_kwargs'.
Proof.
  intros [Hd _] Hsame. unfold get_object, kw_getitem.
  rewrite <- (Hsame (lookup_url_kwarg (base self))) by (apply elem_of_cons; auto).
  rewrite Hd, py_keys_str_dict.
  destruct (view_kwargs !! lookup_url_kwarg (base self)) as [val|]; [|reflexivity].
  rewrite !bind_pure_ok.
  rewrite (get_object_parents_ext self view_kwargs view_kwargs'); [reflexivity|].
  intros k Hk. apply Hsame, elem_of_cons. auto.
Qed.

(** *** to_internal_value *)

(** X10.  When the base conversion returns an object, or raises anything
    that is not a [ValidationError], [to_internal_value] ends the same
    way and the base conversion is its only call: no query is made and
    [fail] is not called. *)
Theorem to_internal_value_passes_through (self : Field Base) (data : value)
    (r : result value) :
  base_to_internal_value self data = r →
  (∀ detail, r ≠ Raise (ValidationError detail)) →
  to_internal_value self data = invoke (CallBaseToInternalValue data) r.
Proof.
  intros Hr Hne. destruct r as [found|e].
  - apply to_internal_value_converted, Hr.
  - apply to_internal_value_other_error; [exact Hr|].
    intros detail ->. apply (Hne detail). reflexivity.
Qed.

(** X11.  A [ValidationError] of the base conversion whose detail is the
    empty list makes [to_internal_value] raise [IndexError], from
    [err.detail[0]] inside the [except] clause, in place of the validation
    error; no query is made. *)
Theorem to_internal_value_empty_detail (self : Field Base) (data : value) :
  base_to_internal_value self data = Raise (ValidationError []) →
  to_internal_value self data =
    IO [CallBaseToInternalValue data] (Raise IndexError).
Proof.
  intros Hconv. unfold to_internal_value, try_except.
  cbn [invoke outcome calls]. rewrite Hconv.
  reflexivity.
Qed.

(** X12.  When the base conversion finds no match and the fallback query
    raises anything other than [ObjectDoesNotExist], [ObjectValueError]
    or [ObjectTypeError], [to_internal_value] ends with that exception:
    it is not turned into [does_not_exist] and [fail] is not called. *)
Theorem to_internal_value_query_error (self : Field Base) (data : value)
    (first : ErrorDetail) (others : list ErrorDetail) (e : exn) :
  base_to_internal_value self data = Raise (ValidationError (first :: others)) →
  code first = "no_match" →
  outcome (fallback_query self data) = Raise e →
  is_lookup_failure e = false →
  to_internal_value self data =
    IO (CallBaseToInternalValue data :: calls (fallback_query self data))
       (Raise e).
Proof.
  intros Hconv Hcode Hq He.
  rewrite (to_internal_value_fallback _ _ _ _ Hconv Hcode), Hq, He. reflexivity.
Qed.

Lemma fallback_query_calls (self : Field Base) (data : value) (key : string) :
  CallFail key ∉ calls (fallback_query self data).
Proof.
  unfold fallback_query. cbn. destruct (get_queryset self) as [qs|e]; cbn.
  - intros H. apply elem_of_cons in H as [H|H]; [discriminate H|].
    apply list_elem_of_singleton in H. discriminate H.
  - intros H. apply list_elem_of_singleton in H. discriminate H.
Qed.

(** X13.  [to_internal_value] calls [fail] only with the key
    [does_not_exist], and only after the base conversion raised a
    [ValidationError] whose first code is [no_match] and the fallback
    query raised [ObjectDoesNotExist], [ObjectValueError] or
    [ObjectTypeError]. *)
Theorem to_internal_value_fails_only_when_missing (self : Field Base)
    (data : value) (key : string) :
  CallFail key ∈ calls (to_internal_value self data) →
  key = "does_not_exist"
  ∧ ∃ first others e,
      base_to_internal_value self data = Raise (ValidationError (first :: others))
      ∧ code first = "no_match"
      ∧ outcome (fallback_query self data) = Raise e
      ∧ is_lookup_failure e = true.
Proof.
  intros Hin.
  destruct (base_to_internal_value self data) as [found|e] eqn:Hconv.
  - rewrite (to_internal_value_converted _ _ _ Hconv) in Hin.
    apply list_elem_of_singleton in Hin. discriminate Hin.
  - destruct e as [| | | | |detail| | | |];
      try (rewrite (to_internal_value_other_error _ _ _ Hconv) in Hin by discriminate;
           apply list_elem_of_singleton in Hin; discriminate Hin).
    destruct detail as [|first others].
    + rewrite (to_internal_value_no_detail _ _ Hconv) in Hin.
      apply list_elem_of_singleton in Hin. discriminate Hin.
    + destruct (decide (code first = "no_match")) as [Hcode|Hcode].
      * rewrite (to_internal_value_fallback _ _ _ _ Hconv Hcode) in Hin.
        destruct (outcome (fallback_query self data)) as [found|e] eqn:Hq.
        { cbn in Hin. apply elem_of_cons in Hin as [Hin|Hin]; [discriminate Hin|].
          destruct (fallback_query_calls _ _ _ Hin). }
        destruct (is_lookup_failure e) eqn:He.
        { cbn in Hin. apply elem_of_cons in Hin as [Hin|Hin]; [discriminate Hin|].
          apply elem_of_app in Hin as [Hin|Hin];
            [destruct (fallback_query_calls _ _ _ Hin)|].
          apply list_elem_of_singleton in Hin. injection Hin as ->.
          split; [reflexivity|]. exists first, others, e. auto. }
        cbn in Hin. apply elem_of_cons in Hin as [Hin|Hin]; [discriminate Hin|].
        destruct (fallback_query_calls _ _ _ Hin).
      * rewrite (to_internal_value_reraise _ _ _ _ Hconv Hcode) in Hin.
        apply list_elem_of_singleton in Hin. discriminate Hin.
Qed.

(** *** NestedHyperlinkedIdentityField, end to end *)

(** X14.  Building an identity field with a [view_name] that is not
    [None] calls the base constructor once, with no positional argument
    and with keywords that bind [read_only] to [True], [source] to ['*']
    and [view_name] to the given one whatever the caller passed for
    [read_only] and [source], that hold no [parent_lookup_kwargs], and
    that agree with the caller's on every other name; the field keeps the
    caller's [parent_lookup_kwargs], or the class attribute
    [{'parent_pk': 'parent__pk'}] without one. *)
Theorem identity_init_end_to_end (view_name : value) (kwargs : gmap string value) :
  is_not_none view_name = true →
  kwargs !! "view_name" = None →
  ∃ passed : gmap string value,
    calls (identity_init view_name kwargs) = [CallBaseInit [] passed]
    ∧ passed !! "read_only" = Some (VBool true)
    ∧ passed !! "source" = Some (VStr "*")
    ∧ passed !! "view_name" = Some view_name
    ∧ passed !! "parent_lookup_kwargs" = None
    ∧ (∀ k, k ≠ "read_only" → k ≠ "source" → k ≠ "view_name" →
            k ≠ "parent_lookup_kwargs" → passed !! k = kwargs !! k)
    ∧ outcome (identity_init view_name kwargs) =
        (b ← base_init [] passed;
         mret (mkField b
                 (default (VDict [("parent_pk", VStr "parent__pk")])
                    (kwargs !! "parent_lookup_kwargs")))).
Proof.
  intros Hvn Hfree.
  set (given := <["view_name" := view_name]>
                  (<["source" := VStr "*"]> (<["read_only" := VBool true]> kwargs))).
  assert (Hrun : identity_init view_name kwargs = init [] given).
  { unfold identity_init, keyword_call. rewrite Hvn.
    rewrite !lookup_insert_ne, Hfree by discriminate. apply bind_pure_ok. }
  assert (Hplk : given !! "parent_lookup_kwargs" = kwargs !! "parent_lookup_kwargs").
  { unfold given. rewrite !lookup_insert_ne by discriminate. reflexivity. }
  exists (delete "parent_lookup_kwargs" given). rewrite Hrun. unfold init.
  rewrite Hplk.
  split; [|split; [|split; [|split; [|split; [|split]]]]].
  - destruct (base_init [] (delete "parent_lookup_kwargs" given)); reflexivity.
  - rewrite lookup_delete_ne by discriminate. unfold given.
    rewrite !lookup_insert_ne by discriminate. apply lookup_insert_eq.
  - rewrite lookup_delete_ne by discriminate. unfold given.
    rewrite lookup_insert_ne by discriminate. apply lookup_insert_eq.
  - rewrite lookup_delete_ne by discriminate. apply lookup_insert_eq.
  - apply lookup_delete_eq.
  - intros k H1 H2 H3 H4. rewrite lookup_delete_ne by congruence. unfold given.
    rewrite !lookup_insert_ne by congruence. reflexivity.
  - destruct (base_init [] (delete "parent_lookup_kwargs" given)); reflexivity.
Qed.

End Further.

(** *** Dotted paths *)

Lemma plain_tail c n : plain (String c n) = true → plain n = true.
Proof.
  unfold plain. intros H. apply andb_prop in H as [Hocc Hend].
  apply negb_true_iff in Hocc, Hend. cbn [occurs] in Hocc.
  apply orb_false_elim in Hocc as [_ Hocc].
  rewrite Hocc. cbn [negb andb]. destruct n as [|c' n]; [reflexivity|].
  change (ends_with_underscore (String c' n) = false) in Hend.
  rewrite Hend. reflexivity.
Qed.

Lemma plain_head c n s : plain (String c n) = true →
  String.prefix "__" (String c (n +:+ "__" +:+ s)) = false.
Proof.
  unfold plain. intros H. apply andb_prop in H as [Hocc Hend].
  apply negb_true_iff in Hocc, Hend. cbn [occurs] in Hocc.
  apply orb_false_elim in Hocc as [Hpre _].
  cbn [String.prefix] in Hpre |- *.
  destruct (Ascii.ascii_dec _ c) as [<-|]; [|reflexivity].
  destruct n as [|c' n].
  - cbn in Hend. discriminate Hend.
  - rewrite append_cons. cbn [String.prefix] in Hpre |- *.
    destruct (Ascii.ascii_dec _ c') as [<-|]; [|reflexivity].
    destruct n; discriminate Hpre.
Qed.

Lemma split_go_plain : ∀ n cur s, plain n = true →
  split_go "__" 0 cur (n +:+ "__" +:+ s) = (cur +:+ n) :: split_go "__" 0 "" s.
Proof.
  induction n as [|c n IH]; intros cur s Hplain.
  - rewrite append_empty_r. destruct s; reflexivity.
  - rewrite append_cons. cbn [split_go].
    rewrite (plain_head _ _ _ Hplain).
    rewrite (IH _ _ (plain_tail _ _ Hplain)), append_assoc. reflexivity.
Qed.

Lemma split_go_no_sep : ∀ n cur, occurs "__" n = false →
  split_go "__" 0 cur n = [cur +:+ n].
Proof.
  induction n as [|c n IH]; intros cur Hocc.
  - rewrite append_empty_r. reflexivity.
  - cbn [occurs] in Hocc. apply orb_false_elim in Hocc as [Hpre Hocc].
    cbn [split_go]. rewrite Hpre, (IH _ Hocc), append_assoc. reflexivity.
Qed.

Lemma split_join (names : list string) :
  names ≠ [] → forallb plain names = true → split "__" (join "__" names) = names.
Proof.
  induction names as [|n names IH]; [contradiction|]. intros _ Hplain.
  cbn [forallb] in Hplain. apply andb_prop in Hplain as [Hn Hnames].
  destruct names as [|n' names].
  - cbn [join]. unfold split. rewrite split_go_no_sep; [reflexivity|].
    unfold plain in Hn. apply andb_prop in Hn as [Hn _].
    apply negb_true_iff, Hn.
  - rewrite join_cons by discriminate. unfold split.
    rewrite (split_go_plain _ _ _ Hn). f_equal.
    apply IH; [discriminate | exact Hnames].
Qed.

(** X15.  A dotted path written by joining attribute names with [__]
    is read back as the chain of these attributes, provided no name
    contains [__] or ends with an underscore: on
    ['a__b__c'] the value is [obj.a.b.c]. *)
Theorem chain_value_join (obj : value) (names : list string) :
  names ≠ [] →
  forallb plain names = true →
  chain_value obj (join "__" names) = fold_getattr obj names.
Proof.
  intros Hne Hplain. unfold chain_value.
  rewrite (split_join names Hne Hplain). reflexivity.
Qed.

(** X16.  An attribute whose name ends with an underscore cannot be
    followed by another one in a dotted path: the path made of [a_] and
    [b] is read as the attribute [a] followed by the attribute [_b]. *)
Theorem chain_value_trailing_underscore (obj : value) (a b : string) :
  plain a = true →
  plain ("_" +:+ b) = true →
  chain_value obj (join "__" [a +:+ "_"; b]) = fold_getattr obj [a; "_" +:+ b].
Proof.
  intros Ha Hb.
  replace (join "__" [a +:+ "_"; b]) with (join "__" [a; "_" +:+ b]).
  - apply chain_value_join; [discriminate|]. cbn [forallb]. rewrite Ha, Hb. reflexivity.
  - cbn [join]. rewrite !append_assoc. reflexivity.
Qed.

(** X17.  Splitting a dotted path on [__] loses nothing: the pieces
    joined with [__] are the path again, for every string. *)
Theorem path_pieces_join (path : string) :
  join "__" (split "__" path) = path.
Proof. apply (join_split_go (String.length path)). lia. Qed.

(** *** The packaging script *)

Example search_plain :
  search_version true
    ("import os" +:+ nl +:+ "__version__ = '0.94.1'" +:+ nl) = Some "0.94.1".
Proof. reflexivity. Qed.

Example search_indented : search_version true " __version__ = '1'" = None.
Proof. reflexivity. Qed.

Example search_unclosed :
  search_version true ("__version__ = '1.0" +:+ nl +:+ "name = 'x'") =
  Some ("1.0" +:+ nl +:+ "name = ").
Proof. reflexivity. Qed.

Lemma strip_prefix_app (p s : string) : strip_prefix p (p +:+ s) = Some s.
Proof.
  induction p as [|a p IH]; [reflexivity|].
  rewrite append_cons. cbn [strip_prefix]. rewrite Ascii.eqb_refl. exact IH.
Qed.

Lemma clashes_strip_prefix (p : string) : ∀ a b,
  clashes p a = true → strip_prefix p (a +:+ b) = None.
Proof.
  induction p as [|x p IH]; intros a b Hclash; [discriminate Hclash|].
  destruct a as [|y a]; [discriminate Hclash|].
  rewrite append_cons. cbn [clashes strip_prefix] in *.
  destruct (Ascii.eqb x y); [apply IH, Hclash | reflexivity].
Qed.

Lemma strip_prefix_short (p : string) : ∀ s,
  (String.length s < String.length p)%nat → strip_prefix p s = None.
Proof.
  induction p as [|x p IH]; intros s Hlen; [cbn in Hlen; lia|].
  destruct s as [|y s]; [reflexivity|]. cbn [strip_prefix].
  destruct (Ascii.eqb x y); [|reflexivity]. apply IH. cbn in Hlen. lia.
Qed.

Lemma span_unquoted_app (v : string) (q : Ascii.ascii) (rest : string) :
  quote_free v = true → is_quote q = true →
  span_unquoted (v +:+ String q rest) = (v, String q rest).
Proof.
  intros Hv Hq. induction v as [|c v IH].
  - change ("" +:+ String q rest) with (String q rest). cbn [span_unquoted].
    rewrite Hq. reflexivity.
  - cbn [quote_free] in Hv. apply andb_prop in Hv as [Hc Hv].
    apply negb_true_iff in Hc. rewrite append_cons. cbn [span_unquoted].
    rewrite Hc, (IH Hv). reflexivity.
Qed.

Lemma match_version_line (q q' : Ascii.ascii) (v after : string) :
  is_quote q = true → is_quote q' = true → quote_free v = true → v ≠ "" →
  match_version ("__version__ = " +:+ String q (v +:+ String q' after)) = Some v.
Proof.
  intros Hq Hq' Hv Hne. unfold match_version.
  rewrite strip_prefix_app, Hq, (span_unquoted_app _ _ _ Hv Hq').
  destruct v; [contradiction | reflexivity].
Qed.

Lemma search_version_skip (rest : string) : ∀ before line_start,
  version_free line_start before = true →
  search_version line_start (before +:+ rest) =
  search_version (ends_line line_start before) rest.
Proof.
  induction before as [|c before IH]; intros line_start Hfree; [reflexivity|].
  cbn [version_free] in Hfree. apply andb_prop in Hfree as [Hhere Hfree].
  rewrite append_cons. cbn [search_version ends_line].
  rewrite <- append_cons.
  assert (Hnone : (if line_start
                   then match_version (String c before +:+ rest)
                   else None) = None).
  { destruct line_start; [|reflexivity]. cbn [negb orb] in Hhere.
    unfold match_version.
    rewrite (clashes_strip_prefix _ _ _ Hhere). reflexivity. }
  rewrite Hnone. apply IH, Hfree.
Qed.

Lemma search_version_absent : ∀ s line_start,
  version_absent line_start s = true → search_version line_start s = None.
Proof.
  induction s as [|c s IH]; intros line_start Habsent.
  - destruct line_start; reflexivity.
  - cbn [version_absent] in Habsent. apply andb_prop in Habsent as [Hhere Habsent].
    cbn [search_version].
    assert (Hnone : (if line_start then match_version (String c s) else None)
                    = None).
    { destruct line_start; [|reflexivity]. cbn [negb orb] in Hhere.
      unfold match_version.
      destruct (strip_prefix "__version__ = " (String c s)); [discriminate|].
      reflexivity. }
    rewrite Hnone. apply IH, Habsent.
Qed.

(** X18.  The version is read from the first line that starts with
    [__version__ = ], a quote, the version and a quote, when the lines
    before it cannot start such an assignment.  The two quotes need not be
    the same, and what follows on the line or after it is not looked
    at. *)
Theorem get_version_found (os : Os) (package before version after : string)
    (q q' : Ascii.ascii) :
  read_text os (os_path_join os package "__init__.py") =
    Ok (before +:+ "__version__ = " +:+ String q (version +:+ String q' after)) →
  version_free true before = true →
  ends_line true before = true →
  is_quote q = true →
  is_quote q' = true →
  quote_free version = true →
  version ≠ "" →
  get_version os package = Ok version.
Proof.
  intros Hread Hfree Hends Hq Hq' Hv Hne. unfold get_version. rewrite Hread.
  cbn. rewrite (search_version_skip _ _ _ Hfree), Hends.
  unfold search_version.
  destruct ("__version__ = " +:+ String q (version +:+ String q' after)) eqn:Hline;
    [discriminate Hline|].
  rewrite <- Hline, (match_version_line _ _ _ _ Hq Hq' Hv Hne). reflexivity.
Qed.

(** X19.  When no line of [__init__.py] starts with [__version__ = ], the
    search finds nothing and [get_version] raises [AttributeError], from
    [.group] on [None]. *)
Theorem get_version_absent (os : Os) (package init_py : string) :
  read_text os (os_path_join os package "__init__.py") = Ok init_py →
  version_absent true init_py = true →
  get_version os package = Raise AttributeError.
Proof.
  intros Hread Habsent. unfold get_version. rewrite Hread. cbn.
  rewrite (search_version_absent _ _ Habsent). reflexivity.
Qed.

Lemma replace_first_found (old new s rest : string) :
  strip_prefix old s = Some rest → replace_first old new s = new +:+ rest.
Proof. intros H. destruct s; cbn [replace_first]; rewrite H; reflexivity. Qed.

Lemma replace_first_prefix (old rest : string) :
  replace_first old "" (old +:+ rest) = rest.
Proof. apply (replace_first_found old "" _ rest), strip_prefix_app. Qed.

Lemma replace_first_short (old new : string) : ∀ s,
  (String.length s < String.length old)%nat → replace_first old new s = s.
Proof.
  induction s as [|c s IH]; intros Hlen.
  - cbn [replace_first]. rewrite strip_prefix_short by exact Hlen. reflexivity.
  - cbn [replace_first]. rewrite strip_prefix_short by exact Hlen.
    rewrite IH; [reflexivity|]. cbn in Hlen. lia.
Qed.

Lemma length_append (a b : string) :
  String.length (a +:+ b) = (String.length a + String.length b)%nat.
Proof.
  induction a as [|c a IH]; [reflexivity|].
  rewrite append_cons. cbn [String.length]. rewrite IH. reflexivity.
Qed.

(** The list [get_package_data] builds: [py.typed], then the files of
    each directory in turn. *)
Lemma filepaths_fold (join : string → string → string)
    (walk : list (string * list string)) : ∀ start : list string,
  fold_left
    (fun filepaths '(base, filenames) => (filepaths ++ (join base <$> filenames))%list)
    walk start =
  (start ++ mjoin ((fun '(base, filenames) => join base <$> filenames) <$> walk))%list.
Proof.
  induction walk as [|[base filenames] walk IH]; intros start; cbn.
  - rewrite app_nil_r. reflexivity.
  - rewrite IH, <- app_assoc. reflexivity.
Qed.

Lemma get_package_data_files (os : Os) (package : string) :
  get_package_data os package =
  {[ package :=
       "py.typed"
       :: mjoin ((fun '(base, filenames) => os_path_join os base <$> filenames)
                   <$> data_directories os package) ]}.
Proof.
  unfold get_package_data. fold (data_directories os package).
  rewrite filepaths_fold. reflexivity.
Qed.

Lemma data_directory_files (os : Os) (package dirpath : string)
    (dirnames filenames : list string) (f : string) :
  (dirpath, dirnames, filenames) ∈ os_walk os package →
  os_path_exists os (os_path_join os dirpath "__init__.py") = false →
  f ∈ filenames →
  os_path_join os (replace_first (package +:+ os_sep os) "" dirpath) f
    ∈ mjoin ((fun '(base, filenames) => os_path_join os base <$> filenames)
               <$> data_directories os package).
Proof.
  intros Hwalk Hinit Hf. apply list_elem_of_join.
  exists (os_path_join os (replace_first (package +:+ os_sep os) "" dirpath)
            <$> filenames).
  split; [apply list_elem_of_fmap; eauto|].
  apply list_elem_of_fmap.
  exists (replace_first (package +:+ os_sep os) "" dirpath, filenames).
  split; [reflexivity|].
  apply list_elem_of_In, in_flat_map.
  exists (dirpath, dirnames, filenames). split; [apply list_elem_of_In, Hwalk|].
  rewrite Hinit. left. reflexivity.
Qed.

(** X20.  Every directory that [os.walk] visits is returned by [get_packages],
    when it holds an [__init__.py], or else has each of its files listed
    by [get_package_data], whose list starts with [py.typed] and is bound
    to the package alone. *)
Theorem walked_directory_accounted (os : Os) (package dirpath : string)
    (dirnames filenames : list string) :
  (dirpath, dirnames, filenames) ∈ os_walk os package →
  ∃ paths : list string,
    get_package_data os package = {[ package := "py.typed" :: paths ]}
    ∧ (dirpath ∈ get_packages os package
       ∨ ∀ f, f ∈ filenames →
              os_path_join os (replace_first (package +:+ os_sep os) "" dirpath) f
                ∈ paths).
Proof.
  intros Hwalk. eexists. split; [apply get_package_data_files|].
  destruct (os_path_exists os (os_path_join os dirpath "__init__.py")) eqn:Hinit.
  - left. unfold get_packages. apply list_elem_of_In, in_flat_map.
    exists (dirpath, dirnames, filenames). split; [apply list_elem_of_In, Hwalk|].
    rewrite Hinit. left. reflexivity.
  - right. intros f Hf. apply (data_directory_files _ _ _ _ _ _ Hwalk Hinit Hf).
Qed.

(** X21.  The files of a directory below the package that holds no
    [__init__.py] are listed relative to the package: the directory
    [package/rel] gives [join(rel, file)]. *)
Theorem package_data_relative (os : Os) (package rel : string)
    (dirnames filenames : list string) (f : string) :
  (package +:+ os_sep os +:+ rel, dirnames, filenames) ∈ os_walk os package →
  os_path_exists os
    (os_path_join os (package +:+ os_sep os +:+ rel) "__init__.py") = false →
  f ∈ filenames →
  ∃ paths : list string,
    get_package_data os package = {[ package := "py.typed" :: paths ]}
    ∧ os_path_join os rel f ∈ paths.
Proof.
  intros Hwalk Hinit Hf. eexists. split; [apply get_package_data_files|].
  pose proof (data_directory_files _ _ _ _ _ _ Hwalk Hinit Hf) as Hin.
  rewrite <- append_assoc, replace_first_prefix in Hin. exact Hin.
Qed.

(** X22.  When the package directory itself holds no [__init__.py], its files
    are listed with the name of the package in front, not relative to
    it: the prefix [package + os.sep] does not occur in [package]. *)
Theorem package_data_root (os : Os) (package : string)
    (dirnames filenames : list string) (f : string) :
  os_sep os ≠ "" →
  (package, dirnames, filenames) ∈ os_walk os package →
  os_path_exists os (os_path_join os package "__init__.py") = false →
  f ∈ filenames →
  ∃ paths : list string,
    get_package_data os package = {[ package := "py.typed" :: paths ]}
    ∧ os_path_join os package f ∈ paths.
Proof.
  intros Hsep Hwalk Hinit Hf. eexists. split; [apply get_package_data_files|].
  pose proof (data_directory_files _ _ _ _ _ _ Hwalk Hinit Hf) as Hin.
  rewrite replace_first_short in Hin; [exact Hin|].
  rewrite length_append. destruct (os_sep os); [contradiction|]. cbn. lia.
Qed.

(** *** The further properties at work *)

(** The comments have no slug. *)
Lemma get_url_no_slug :
  get_url (fw := stub) slug_field comment "comment-detail" tt None =
  IO [] (Raise AttributeError).
Proof.
  apply (get_url_lookup_field_error (fw := stub) slug_field comment
           "comment-detail" tt None AttributeError); reflexivity.
Defined.

(** The post of the comment cannot be loaded. *)
Lemma get_url_parent_error_broken :
  get_url (fw := stub) comment_field broken_comment "comment-detail" tt None =
  IO [] (Raise (OtherError "OperationalError")).
Proof.
  apply (get_url_parent_error (fw := stub) comment_field broken_comment
           "comment-detail" tt None comment_lookups []
           [("blog_pk", "post__blog__pk")] "post_pk" "post__pk" (VInt 7)).
  - split; [reflexivity | by_evaluation].
  - reflexivity.
  - reflexivity.
  - reflexivity.
  - reflexivity.
  - reflexivity.
  - discriminate.
Defined.

(** A field built with [parent_lookup_kwargs=None]. *)
Lemma lookups_none :
  get_url (fw := stub) none_field comment "comment-detail" tt None =
    IO [] (Raise AttributeError)
  ∧ get_object (fw := stub) none_field "comment-detail" [] {["pk" := VInt 7]} =
      IO [] (Raise AttributeError).
Proof.
  apply (lookups_not_a_dict (fw := stub) none_field comment "comment-detail" tt
           None [] {["pk" := VInt 7]} (VInt 7)).
  - reflexivity.
  - reflexivity.
  - reflexivity.
  - exists (VInt 7). reflexivity.
Defined.

(** A field built with [parent_lookup_kwargs={'post_pk': 1}]. *)
Lemma get_url_int_path :
  get_url (fw := stub) int_path_field comment "comment-detail" tt None =
  IO [] (Raise AttributeError).
Proof.
  apply (get_url_path_not_a_string (fw := stub) int_path_field comment
           "comment-detail" tt None "post_pk" (VInt 1) [] (VInt 7)); reflexivity.
Defined.

(** The entries of the comment field in both orders. *)
Lemma get_url_swapped :
  ∃ D : gmap string value,
    get_url (fw := stub) comment_field comment "comment-detail" tt None =
      IO [CallReverse (fw := stub) "comment-detail" D tt None]
         (Ok (VStr "/comment-detail/"))
    ∧ get_url (fw := stub) swapped_field comment "comment-detail" tt None =
        IO [CallReverse (fw := stub) "comment-detail" D tt None]
           (Ok (VStr "/comment-detail/")).
Proof.
  apply (get_url_entry_order (fw := stub) comment_field swapped_field comment
           "comment-detail" tt None comment_lookups
           [("blog_pk", "post__blog__pk"); ("post_pk", "post__pk")] (VInt 7)).
  - reflexivity.
  - split; [reflexivity | by_evaluation].
  - split; [reflexivity | by_evaluation].
  - apply perm_swap.
  - reflexivity.
  - reflexivity.
  - reflexivity.
Defined.

(** The URL of a reply under a field built without [parent_lookup_kwargs]. *)
Lemma get_url_default_reply :
  get_url (fw := stub) (mkField ("pk", "pk") class_parent_lookup_kwargs) reply
    "reply-detail" tt None =
  IO [CallReverse (fw := stub) "reply-detail"
        (<["parent_pk" := VInt 7]> {["pk" := VInt 9]}) tt None]
     (Ok (VStr "/reply-detail/")).
Proof.
  apply (get_url_default_lookups (fw := stub) [] ∅
           (mkField ("pk", "pk") class_parent_lookup_kwargs) reply comment
           "reply-detail" tt None (VInt 9) (VInt 7)); reflexivity.
Defined.

(** The URL of a comment without the key of its blog. *)
Lemma get_object_no_blog :
  get_object (fw := stub) comment_field "comment-detail" []
    (<["post_pk" := VInt 3]> {["pk" := VInt 7]}) =
  IO [] (Raise (KeyError "blog_pk")).
Proof.
  apply (get_object_missing_argument (fw := stub) comment_field "comment-detail"
           [] (<["post_pk" := VInt 3]> {["pk" := VInt 7]}) comment_lookups
           ["pk"; "post_pk"] [] "blog_pk").
  - split; [reflexivity | by_evaluation].
  - reflexivity.
  - reflexivity.
  - reflexivity.
Defined.

(** A [format] URL argument, another view name and positional arguments
    change nothing. *)
Lemma get_object_with_format :
  get_object (fw := stub) comment_field "comment-detail" [] comment_view_kwargs =
  get_object (fw := stub) comment_field "comment-list" [VInt 0]
    (<["format" := VStr "json"]> comment_view_kwargs).
Proof.
  apply (get_object_uses_only_its_keys (fw := stub) comment_field
           "comment-detail" "comment-list" [] [VInt 0] comment_view_kwargs
           (<["format" := VStr "json"]> comment_view_kwargs) comment_lookups).
  - split; [reflexivity | by_evaluation].
  - intros k Hk.
    apply elem_of_cons in Hk as [->|Hk]; [reflexivity|].
    apply elem_of_cons in Hk as [->|Hk]; [reflexivity|].
    apply list_elem_of_singleton in Hk as ->. reflexivity.
Defined.

(** A URL that the base conversion resolves. *)
Lemma to_internal_value_url :
  to_internal_value (fw := found_stub) comment_field (VStr "/comments/5/") =
  IO [CallBaseToInternalValue (VStr "/comments/5/")] (Ok (VInt 5)).
Proof.
  apply (to_internal_value_passes_through (fw := found_stub) comment_field
           (VStr "/comments/5/") (Ok (VInt 5))); [reflexivity | discriminate].
Defined.

(** A [ValidationError] without detail. *)
Lemma to_internal_value_no_detail_at_all :
  to_internal_value (fw := empty_detail_stub) comment_field (VInt 7) =
  IO [CallBaseToInternalValue (VInt 7)] (Raise IndexError).
Proof.
  apply (to_internal_value_empty_detail (fw := empty_detail_stub) comment_field
           (VInt 7)). reflexivity.
Defined.

(** A key that several objects answer to. *)
Lemma to_internal_value_ambiguous :
  to_internal_value (fw := ambiguous_stub) comment_field (VInt 7) =
  IO [CallBaseToInternalValue (VInt 7); CallGetQueryset;
      CallQuerysetGet (fw := ambiguous_stub) tt {["pk" := VInt 7]}]
     (Raise (OtherError "MultipleObjectsReturned")).
Proof.
  apply (to_internal_value_query_error (fw := ambiguous_stub) comment_field
           (VInt 7) (mkErrorDetail "Invalid." "no_match") []); reflexivity.
Defined.

(** The call of [fail] for a key that no object answers to. *)
Lemma to_internal_value_fail_missing :
  CallFail "does_not_exist"
    ∈ calls (to_internal_value (fw := missing_stub) comment_field (VInt 7))
  ∧ ∃ first others e,
      base_to_internal_value (Framework := missing_stub) comment_field (VInt 7) =
        Raise (ValidationError (first :: others))
      ∧ code first = "no_match"
      ∧ outcome (fallback_query (fw := missing_stub) comment_field (VInt 7)) =
          Raise e
      ∧ is_lookup_failure e = true.
Proof.
  assert (Hin : CallFail "does_not_exist"
                  ∈ calls (to_internal_value (fw := missing_stub) comment_field
                             (VInt 7))).
  { vm_compute. do 3 (apply elem_of_cons; right). apply elem_of_cons. left.
    reflexivity. }
  split; [exact Hin|].
  exact (proj2 (to_internal_value_fails_only_when_missing (fw := missing_stub)
                  comment_field (VInt 7) "does_not_exist" Hin)).
Defined.

(** An identity field asked to be writable. *)
Lemma identity_init_read_only_false :
  ∃ passed : gmap string value,
    calls (identity_init (fw := stub) (VStr "comment-detail")
             {["read_only" := VBool false]}) = [CallBaseInit [] passed]
    ∧ passed !! "read_only" = Some (VBool true)
    ∧ passed !! "source" = Some (VStr "*").
Proof.
  destruct (identity_init_end_to_end (fw := stub) (VStr "comment-detail")
              {["read_only" := VBool false]})
    as (passed & Hcalls & Hro & Hsrc & _); [reflexivity | reflexivity |].
  exists passed. repeat split; assumption.
Defined.

(** The blog of the post of the comment. *)
Lemma chain_value_blog_pk :
  chain_value comment (join "__" ["post"; "blog"; "pk"]) = Ok (VInt 1).
Proof.
  rewrite (chain_value_join comment ["post"; "blog"; "pk"]);
    [reflexivity | discriminate | reflexivity].
Defined.

(** The path made of [class_] and [pk]. *)
Lemma chain_value_class_pk :
  chain_value comment "class___pk" = fold_getattr comment ["class"; "_pk"].
Proof.
  apply (chain_value_trailing_underscore comment "class" "pk"); reflexivity.
Defined.

(** The version of the stand-in package. *)
Lemma get_version_sample :
  get_version sample_os "rest_framework_nested" = Ok "0.94.1".
Proof.
  apply (get_version_found sample_os "rest_framework_nested"
           ("__author__ = 'alanjds'" +:+ nl) "0.94.1" nl single_quote single_quote);
    try reflexivity.
  discriminate.
Defined.

(** A directory whose [__init__.py] sets no version. *)
Lemma get_version_docs : get_version sample_os "docs" = Raise AttributeError.
Proof.
  apply (get_version_absent sample_os "docs" "import os"); reflexivity.
Defined.

(** The templates of the stand-in package. *)
Lemma package_data_templates :
  ∃ paths : list string,
    get_package_data sample_os "rest_framework_nested" =
      {[ "rest_framework_nested" := "py.typed" :: paths ]}
    ∧ "templates/base.html" ∈ paths.
Proof.
  apply (package_data_relative sample_os "rest_framework_nested" "templates" []
           ["base.html"] "base.html").
  - apply elem_of_cons. right. apply elem_of_cons. left. reflexivity.
  - reflexivity.
  - apply elem_of_cons. left. reflexivity.
Defined.

(** The package directory itself is a package. *)
Lemma walked_package_accounted :
  ∃ paths : list string,
    get_package_data sample_os "rest_framework_nested" =
      {[ "rest_framework_nested" := "py.typed" :: paths ]}
    ∧ ("rest_framework_nested" ∈ get_packages sample_os "rest_framework_nested"
       ∨ ∀ f, f ∈ ["__init__.py"; "py.typed"; "relations.py"] →
              "rest_framework_nested/" +:+ f ∈ paths).
Proof.
  apply (walked_directory_accounted sample_os "rest_framework_nested"
           "rest_framework_nested" ["templates"]
           ["__init__.py"; "py.typed"; "relations.py"]).
  apply elem_of_cons. left. reflexivity.
Defined.

(** The documents, walked as if they were a package. *)
Lemma package_data_docs :
  ∃ paths : list string,
    get_package_data sample_os "docs" = {[ "docs" := "py.typed" :: paths ]}
    ∧ "docs/index.md" ∈ paths.
Proof.
  apply (package_data_root sample_os "docs" [] ["index.md"] "index.md").
  - discriminate.
  - apply elem_of_cons. left. reflexivity.
  - reflexivity.
  - apply elem_of_cons. left. reflexivity.
Defined.
